(** * Lesson 7: the gdalwarp batch-generation cell of Python-and-Gdal.ipynb

    The notebook's only code with its own control flow is the cell that
    lists the band files of a Landsat scene, renders one [gdalwarp] command
    per file and writes the commands to [ClipTurkufromLandsat.sh].  This
    file embeds that cell, together with the parts of the Python standard
    library it calls ([str] slicing, [%]-formatting, [os.path.join],
    [glob.glob], [open]/[write]/[close]), and proves the properties of the
    batch generator.

    Python [str] values are modelled as [string]: a character is one
    [ascii] code.  Paths are POSIX paths, as the notebook's are. *)

From Stdlib Require Import ZArith Ascii String List Lia.
From stdpp Require Import base gmap strings list pretty.

Local Open Scope Z_scope.

Abbreviation chars := String.list_ascii_of_string.

(** ** Strings *)

Module Str.

(** [s[:k]], Python's slice with an omitted start: a negative [k] counts
    from the end, and both ends are clamped to the string. *)
Definition slice_to (s : string) (k : Z) : string :=
  let n := Z.of_nat (String.length s) in
  let stop := if k <? 0 then Z.max (n + k) 0 else Z.min k n in
  String.substring 0 (Z.to_nat stop) s.

(** [s.startswith(c)] and [s.endswith(c)] for a one-character [c]. *)
Definition startswith (s : string) (c : ascii) : bool :=
  match s with
  | String a _ => bool_decide (a = c)
  | EmptyString => false
  end.

Fixpoint endswith (s : string) (c : ascii) : bool :=
  match s with
  | EmptyString => false
  | String a EmptyString => bool_decide (a = c)
  | String _ s' => endswith s' c
  end.

(** [c in s]. *)
Fixpoint contains (s : string) (c : ascii) : bool :=
  match s with
  | EmptyString => false
  | String a s' => bool_decide (a = c) || contains s' c
  end.

(** [s.endswith(t)]. *)
Definition has_suffix (s t : string) : Prop := ∃ r, s = r +:+ t.

(** [''.join(l)]. *)
Fixpoint concat (l : list string) : string :=
  match l with
  | [] => EmptyString
  | s :: l' => s +:+ concat l'
  end.

(** [s] with its last [n] characters removed. *)
Definition without_last (n : nat) (s : string) : string :=
  String.rev (String.substring n (String.length s) (String.rev s)).

(** The line feed and the carriage return. *)
Definition LF : ascii := "010"%char.
Definition CR : ascii := "013"%char.

(** A text split after every line feed, each line keeping its terminator;
    a last line without terminator is a line too. *)
Fixpoint lines (s : string) : list string :=
  match s with
  | EmptyString => []
  | String a s' =>
      if bool_decide (a = LF) then String a EmptyString :: lines s'
      else match lines s' with
           | [] => [String a EmptyString]
           | l :: ls => String a l :: ls
           end
  end.

(** What reading in text mode does to the line ends of a file: a carriage
    return, alone or followed by a line feed, is read as one line feed. *)
Fixpoint universal_newlines (s : string) : string :=
  match s with
  | EmptyString => EmptyString
  | String a s' =>
      if bool_decide (a = CR)
      then match s' with
           | String b s'' =>
               if bool_decide (b = LF) then String LF (universal_newlines s'')
               else String LF (universal_newlines s')
           | EmptyString => String LF EmptyString
           end
      else String a (universal_newlines s')
  end.

(** A text without line end. *)
Definition single_line (s : string) : bool :=
  negb (contains s LF) && negb (contains s CR).

End Str.

(** [open(path).readlines()]: the file read back in text mode, as the list
    of its lines. *)
Definition readlines (text : string) : list string :=
  Str.lines (Str.universal_newlines text).

(** The lines of a script, each split into words at white space: the
    commands as a shell reads them when their words hold no character that
    is special to it. *)
Definition argv (text : string) : list (list string) :=
  map String.words (readlines text).

(** ** Values and exceptions *)

(** The values the cell formats: the clipping extent is a tuple of [int]s,
    the two paths are [str]s. *)
Inductive value :=
| VInt (z : Z)
| VStr (s : string).

(** [str(v)], the conversion [%s] applies. *)
Definition str (v : value) : string :=
  match v with
  | VInt z => pretty z
  | VStr s => s
  end.

Inductive exn :=
| TypeError (msg : string)
| ValueError (msg : string)
| FileNotFoundError (path : string)
| NotModelled (what : string).

Inductive result (A : Type) :=
| Ok (a : A)
| Raise (e : exn).
Arguments Ok {A} a.
Arguments Raise {A} e.

Definition result_map {A B} (f : A → B) (r : result A) : result B :=
  match r with
  | Ok a => Ok (f a)
  | Raise e => Raise e
  end.

(** ** [%]-formatting *)

(** [template % args] for a tuple [args], on the conversions the notebook
    uses: [%s] consumes the next argument and inserts its [str], [%%] is a
    percent sign.  Python raises [TypeError] when the tuple runs out, and
    when arguments are left over at the end; a lone [%] at the end is a
    [ValueError].  Every other conversion (mapping keys, flags, widths,
    [%d], ...) is outside this model and reported as [NotModelled]. *)
Definition not_enough : exn := TypeError "not enough arguments for format string".
Definition not_all_converted : exn :=
  TypeError "not all arguments converted during string formatting".

Definition percent : ascii := "%"%char.

Fixpoint format (template : string) (args : list value) : result string :=
  match template with
  | EmptyString =>
      match args with
      | [] => Ok EmptyString
      | _ :: _ => Raise not_all_converted
      end
  | String c rest =>
      if negb (bool_decide (c = percent)) then result_map (String c) (format rest args)
      else
        match rest with
        | EmptyString => Raise (ValueError "incomplete format")
        | String conv rest' =>
            if bool_decide (conv = percent)
            then result_map (String percent) (format rest' args)
            else if bool_decide (conv = "s"%char)
            then match args with
                 | [] => Raise not_enough
                 | v :: args' => result_map (λ r, str v +:+ r) (format rest' args')
                 end
            else Raise (NotModelled "conversion")
        end
  end.

(** The number of placeholders of a template, and whether every conversion
    of the template is one of the modelled [%s] and [%%]. *)
Fixpoint placeholders (template : string) : nat :=
  match template with
  | EmptyString => 0
  | String c rest =>
      if negb (bool_decide (c = percent)) then placeholders rest
      else
        match rest with
        | EmptyString => 0
        | String conv rest' =>
            if bool_decide (conv = percent) then placeholders rest'
            else S (placeholders rest')
        end
  end.

Fixpoint supported (template : string) : bool :=
  match template with
  | EmptyString => true
  | String c rest =>
      if negb (bool_decide (c = percent)) then supported rest
      else
        match rest with
        | EmptyString => true
        | String conv rest' =>
            (bool_decide (conv = percent) || bool_decide (conv = "s"%char))
            && supported rest'
        end
  end.

(** ** [os.path] (posixpath) *)

Definition sep : ascii := "/"%char.

(** [os.path.join(a, *p)]: a component that starts with a slash replaces
    what was joined so far; otherwise it is appended, after a slash unless
    the path is empty or already ends with one. *)
Definition join_step (path b : string) : string :=
  if Str.startswith b sep then b
  else if bool_decide (path = EmptyString) || Str.endswith path sep then path +:+ b
  else path +:+ String sep b.

Definition os_path_join (a : string) (p : list string) : string :=
  fold_left join_step p a.

(** [p.rstrip('/')]. *)
Fixpoint rstrip_sep (p : string) : string :=
  match p with
  | EmptyString => EmptyString
  | String c p' =>
      match rstrip_sep p' with
      | EmptyString => if bool_decide (c = sep) then EmptyString else String c EmptyString
      | r => String c r
      end
  end.

(** [(p[:i], p[i:])] for [i = p.rfind('/') + 1]. *)
Fixpoint rsplit_sep (p : string) : string * string :=
  match p with
  | EmptyString => (EmptyString, EmptyString)
  | String c p' =>
      let '(head, tail) := rsplit_sep p' in
      match head with
      | EmptyString =>
          if bool_decide (c = sep) then (String c EmptyString, tail)
          else (EmptyString, String c tail)
      | _ => (String c head, tail)
      end
  end.

(** [os.path.split(p)]: the head loses its trailing slashes unless it
    consists of slashes only. *)
Definition os_path_split (p : string) : string * string :=
  let '(head, tail) := rsplit_sep p in
  (match rstrip_sep head with EmptyString => head | stripped => stripped end, tail).

(** [os.path.basename(p)] *)
Definition os_path_basename (p : string) : string := snd (os_path_split p).

(** ** [fnmatch] *)

(** The shell pattern language of [fnmatch.translate]: [*] matches any run
    of characters (newlines included), [?] one character, anything else
    itself; matching is case-sensitive and anchored at both ends.  Bracket
    classes are not modelled: [classless] rules them out. *)
Inductive tok :=
| Star
| Any
| Lit (c : ascii).

Definition tok_of (c : ascii) : tok :=
  if bool_decide (c = "*"%char) then Star
  else if bool_decide (c = "?"%char) then Any
  else Lit c.

Fixpoint translate (pat : string) : list tok :=
  match pat with
  | EmptyString => []
  | String c pat' => tok_of c :: translate pat'
  end.

Fixpoint match_toks (p : list tok) (s : string) {struct p} : bool :=
  match p with
  | [] => match s with EmptyString => true | _ => false end
  | Lit c :: p' =>
      match s with
      | String a s' => bool_decide (a = c) && match_toks p' s'
      | EmptyString => false
      end
  | Any :: p' =>
      match s with
      | String _ s' => match_toks p' s'
      | EmptyString => false
      end
  | Star :: p' =>
      (fix star (s : string) : bool :=
         match_toks p' s
         || match s with
            | String _ s' => star s'
            | EmptyString => false
            end) s
  end.

Definition fnmatch (name pat : string) : bool := match_toks (translate pat) name.

Definition classless (pat : string) : bool := negb (Str.contains pat "["%char).

(** The tokens of a text without wildcard. *)
Definition lits (t : string) : list tok := map Lit (chars t).

(** ** The world: directories, files and the effects performed *)

(** What a run can do to the outside: the notebook opens, writes and closes
    files, and its merge cell runs a command with [os.system]; the exercise
    downloads tiles with [urllib.request.urlretrieve]. *)
Inductive event :=
| EvOpen (path : string)
| EvWrite (path data : string)
| EvClose (path : string)
| EvSystem (cmd : string)
| EvUrlretrieve (url path : string).

(** [listing] gives, for every directory that exists, its entries in the
    order [os.scandir] yields them; [files] gives the content of the files
    written, by the path they were opened with; [trace] records the effects
    in the order they happened. *)
Record World := {
  listing : gmap string (list string);
  files : gmap string string;
  trace : list event
}.

Definition os_scandir (w : World) (dirname : string) : result (list string) :=
  match listing w !! dirname with
  | Some names => Ok names
  | None => Raise (FileNotFoundError dirname)
  end.

(** ** [glob] *)

Definition magic_check (c : ascii) : bool :=
  bool_decide (c = "*"%char) || bool_decide (c = "?"%char) || bool_decide (c = "["%char).

Fixpoint has_magic (s : string) : bool :=
  match s with
  | EmptyString => false
  | String c s' => magic_check c || has_magic s'
  end.

Definition ishidden (path : string) : bool := Str.startswith path "."%char.

(** [glob._iterdir]: the entries of the directory, and nothing at all when
    [os.scandir] raises ([except OSError: return]). *)
Definition iterdir (w : World) (dirname : string) : list string :=
  match os_scandir w dirname with
  | Ok names => names
  | Raise _ => []
  end.

(** [glob._glob1]: hidden entries are dropped unless the pattern itself
    starts with a dot, then [fnmatch.filter] keeps the matching names. *)
Definition glob1 (w : World) (dirname pattern : string) : list string :=
  let names := iterdir w dirname in
  let names := if ishidden pattern then names
               else List.filter (λ x, negb (ishidden x)) names in
  List.filter (λ name, fnmatch name pattern) names.

(** [glob.glob(pathname)] for a pathname made of a plain directory and a
    wildcard pattern, the shape the notebook passes: the path is split into
    its directory and its last component, the directory is scanned with the
    component as pattern, and every match is joined to the directory
    again. *)
Definition glob_glob (w : World) (pathname : string) : list string :=
  let '(dirname, basename) := os_path_split pathname in
  map (λ name, os_path_join dirname [name]) (glob1 w dirname basename).

(** The directories and patterns for which [glob_glob] is [glob.glob]: the
    directory is not empty, has no wildcard and no trailing slash, and the
    pattern is a single path component with a wildcard and no bracket
    class. *)
Definition glob_shape (directory pattern : string) : bool :=
  negb (bool_decide (directory = EmptyString)) && negb (has_magic directory)
  && negb (Str.endswith directory sep)
  && negb (Str.contains pattern sep) && has_magic pattern && classless pattern.

(** What [glob.glob] matches in a directory: the name passes [fnmatch], and
    a hidden name only for a pattern that starts with a dot. *)
Definition glob_match (pattern name : string) : bool :=
  (ishidden pattern || negb (ishidden name)) && fnmatch name pattern.

(** ** Statements: state and exceptions *)

(** A statement runs in a world and either returns or raises; the world it
    leaves behind keeps whatever was done before the exception. *)
Definition M (A : Type) : Type := World → result A * World.

Definition ret {A} (a : A) : M A := λ w, (Ok a, w).

Definition bind {A B} (k : A → M B) (m : M A) : M B :=
  λ w, match m w with
       | (Ok a, w') => k a w'
       | (Raise e, w') => (Raise e, w')
       end.

#[global] Instance M_ret : MRet M := @ret.
#[global] Instance M_bind : MBind M := @bind.

(** An expression that only reads the world, and one that does not even
    read it. *)
Definition reads {A} (f : World → result A) : M A := λ w, (f w, w).
Definition pure {A} (r : result A) : M A := λ w, (r, w).

(** ** Files *)

Inductive file := File (name : string).

Definition log (e : event) (w : World) : list event := trace w ++ [e].

(** [open(name, 'w')] creates the file, or empties the one that is there. *)
Definition open_w (name : string) : M file :=
  λ w, (Ok (File name),
        {| listing := listing w;
           files := <[name := EmptyString]> (files w);
           trace := log (EvOpen name) w |}).

(** [f.write(data)] appends [data] to what the file holds and returns the
    number of characters written. *)
Definition write (f : file) (data : string) : M nat :=
  λ w, let 'File name := f in
       (Ok (String.length data),
        {| listing := listing w;
           files := <[name := default EmptyString (files w !! name) +:+ data]> (files w);
           trace := log (EvWrite name data) w |}).

Definition close (f : file) : M unit :=
  λ w, let 'File name := f in
       (Ok (),
        {| listing := listing w; files := files w; trace := log (EvClose name) w |}).

(** [os.system(cmd)] hands the command to a shell; what the command does to
    the files is not modelled, only that it ran, and neither is its exit
    status. *)
Definition os_system (cmd : string) : M unit :=
  λ w, (Ok (),
        {| listing := listing w; files := files w; trace := log (EvSystem cmd) w |}).

(** ** The clipping cell *)

(** ["\n"] *)
Definition nl : string := String Str.LF EmptyString.

(** [outputfile = inputfile[:-4] + "_clip.tif"] *)
Definition outputfile (inputfile : string) : string :=
  Str.slice_to inputfile (-4) +:+ "_clip.tif".

Definition cmd_file : string := "ClipTurkufromLandsat.sh".

Section Batch.

(** The two library calls of the cell, left open: how the files are listed,
    and how one command is rendered from an input and an output path. *)
Variable enumerate : World → result (list string).
Variable render : string → string → result string.

(** [for fp in FileList: ... command += render] *)
Fixpoint loop (FileList : list string) (command : string) : result string :=
  match FileList with
  | [] => Ok command
  | fp :: rest =>
      let inputfile := fp in
      match render inputfile (outputfile inputfile) with
      | Ok line => loop rest (command +:+ line)
      | Raise e => Raise e
      end
  end.

Definition batch : M unit :=
  FileList ← reads enumerate;
  command ← pure (loop FileList EmptyString);
  f ← open_w (os_path_join cmd_file []);
  _ ← write f command;
  close f.

(** The commands rendered for a list of files, one for each. *)
Definition rendered (FileList cmds : list string) : Prop :=
  Forall2 (λ fp c, render fp (outputfile fp) = Ok c) FileList cmds.

End Batch.

(** The clipping extent, as the notebook leaves it for the student. *)
Definition xmin : Z := 0.
Definition ymin : Z := 0.
Definition xmax : Z := 0.
Definition ymax : Z := 0.

Definition template : string := "gdalwarp -te %s %s %s %s %s %s " +:+ nl.

(** [template % (xmin, ymin, xmax, ymax, inputfile, outputfile)] *)
Definition render_with (template : string) (inputfile outputfile : string) : result string :=
  format template
    [VInt xmin; VInt ymin; VInt xmax; VInt ymax; VStr inputfile; VStr outputfile].

(** [glob.glob(os.path.join(directory, pattern))] *)
Definition enumerate (directory pattern : string) (w : World) : result (list string) :=
  Ok (glob_glob w (os_path_join directory [pattern])).

Definition FileList (w : World) : list string :=
  glob_glob w (os_path_join "/home/geo/LandsatData" ["*band*.tif"]).

(** The cell with another template in place of the notebook's. *)
Definition cell_with (template : string) : M unit :=
  batch (enumerate "/home/geo/LandsatData" "*band*.tif") (render_with template).

Definition cell : M unit := cell_with template.

(** The text the cell builds in [command] before it opens the file. *)
Definition command (w : World) : result string :=
  loop (render_with template) (FileList w) EmptyString.

(** The command the cell renders for one input file, without and with its
    newline, and the script made of the commands of all files. *)
Definition command_body (inputfile : string) : string :=
  "gdalwarp -te 0 0 0 0 " +:+ inputfile +:+ " " +:+ outputfile inputfile +:+ " ".

Definition command_line (inputfile : string) : string := command_body inputfile +:+ nl.

Definition script (w : World) : string := Str.concat (map command_line (FileList w)).

(** ** The merge cell *)

Definition merge_cell : M unit :=
  let inputfiles := "band3_clip.tif band4_clip.tif band5_clip.tif" in
  let outputfile := "Landsat8_GreenRedNir.tif" in
  command ← pure (format "gdal_merge.py -separate %s -o %s"
                    [VStr inputfiles; VStr outputfile]);
  os_system command.

(** ** Sample worlds *)

(** A scene directory with three bands, no directory at all, a directory
    without band files, and a directory whose band file has a newline in
    its name; nothing has been written yet. *)
Definition no_effects (dirs : gmap string (list string)) : World :=
  {| listing := dirs; files := ∅; trace := [] |}.

Definition w_bands : World :=
  no_effects {[ "/home/geo/LandsatData" := ["band3.tif"; "band4.tif"; "band5.tif"] ]}.

Definition w_missing : World := no_effects ∅.

Definition w_no_match : World :=
  no_effects {[ "/home/geo/LandsatData" := ["LC8_MTL.txt"; "README.GTF"] ]}.

Definition w_newline : World :=
  no_effects {[ "/home/geo/LandsatData" := ["band" +:+ nl +:+ "3.tif"] ]}.

(** A directory in which the script has been run once: the clipped band
    lies beside the band it was cut from. *)
Definition w_clipped : World :=
  no_effects {[ "/home/geo/LandsatData" := ["band3.tif"; "band3_clip.tif"] ]}.

(** ** More on templates and words *)

(** A template that does not end in a lone [%]. *)
Fixpoint complete (template : string) : bool :=
  match template with
  | EmptyString => true
  | String c rest =>
      if negb (bool_decide (c = percent)) then complete rest
      else
        match rest with
        | EmptyString => false
        | String _ rest' => complete rest'
        end
  end.

(** A text with a white-space character in it (the space and the codes 9
    to 13), the characters at which [String.words] splits. *)
Fixpoint has_blank (s : string) : bool :=
  match s with
  | EmptyString => false
  | String a s' => Ascii.is_space a || has_blank s'
  end.

(** A character the shell takes as it is wherever it stands in a word: a
    letter, a digit, or one of [/ . _ -]; and a text made of such characters
    only. *)
Definition plain_char (c : ascii) : bool :=
  let n := nat_of_ascii c in
  (Nat.leb 48 n && Nat.leb n 57) || (Nat.leb 65 n && Nat.leb n 90)
  || (Nat.leb 97 n && Nat.leb n 122)
  || bool_decide (c = "/"%char) || bool_decide (c = "."%char)
  || bool_decide (c = "_"%char) || bool_decide (c = "-"%char).

Fixpoint plain (s : string) : bool :=
  match s with
  | EmptyString => true
  | String a s' => plain_char a && plain s'
  end.

(** The characters at which the shell splits an unquoted line: space, tab
    and newline; and a text with one of them in it. *)
Definition ifs_char (c : ascii) : bool :=
  bool_decide (c = " "%char) || bool_decide (c = "009"%char) || bool_decide (c = Str.LF).

Fixpoint has_ifs (s : string) : bool :=
  match s with
  | EmptyString => false
  | String a s' => ifs_char a || has_ifs s'
  end.

(** The words of the command for one input file. *)
Definition gdalwarp_argv (inputfile : string) : list string :=
  ["gdalwarp"; "-te"; pretty xmin; pretty ymin; pretty xmax; pretty ymax;
   inputfile; outputfile inputfile].

(** ** The band statistics cell *)

Section Statistics.

(** The pixel values and how [print] shows a value or [None]; what GDAL
    computes is left open. *)
Variable V : Type.
Variable repr : option V → string.

(** What the cell asks of a band: [GetMinimum()] and [GetMaximum()] are
    [None] as long as no statistics are recorded. *)
Record Band := {
  GetMinimum : option V;
  GetMaximum : option V;
  GetNoDataValue : option V
}.

Variable ComputeStatistics : Band → Band.

(** [x is None] *)
Definition is_None (x : option V) : bool :=
  match x with
  | None => true
  | Some _ => false
  end.

(** [print(label, x)]: the two arguments, separated by a blank. *)
Definition print2 (label : string) (x : option V) : string :=
  label +:+ " " +:+ repr x.

(** The cell: statistics are computed only when a bound is missing; the band
    it leaves and the lines it prints. *)
Definition statistics_cell (band : Band) : Band * list string :=
  let '(band, out) :=
    if is_None (GetMinimum band) || is_None (GetMaximum band)
    then (ComputeStatistics band, ["Statistics computed."])
    else (band, []) in
  (band, out ++ [print2 "[ NO DATA VALUE ] = " (GetNoDataValue band);
                 print2 "[ MIN ] = " (GetMinimum band);
                 print2 "[ MAX ] = " (GetMaximum band)]).

End Statistics.

Arguments GetMinimum {V} _.
Arguments GetMaximum {V} _.
Arguments GetNoDataValue {V} _.

(** A band without statistics, and a [ComputeStatistics] that records
    bounds, both over integer values shown in decimal. *)
Definition sample_repr (x : option Z) : string := from_option pretty "None" x.

Definition sample_ComputeStatistics (b : Band Z) : Band Z :=
  {| GetMinimum := Some 0; GetMaximum := Some 16000; GetNoDataValue := GetNoDataValue b |}.

Definition sample_band : Band Z :=
  {| GetMinimum := None; GetMaximum := None; GetNoDataValue := Some (-9999) |}.

(** ** Raster arrays *)

(** A band read as an array ([raster.ReadAsArray()],
    [gdal_array.LoadFile(filepath)]): rows of pixel values.  The surface
    reflectance bands hold 16-bit integers, and their no-data value, a
    float in GDAL, is a whole number: both are integers here. *)
Definition ndarray : Type := list (list Z).

Definition ravel (a : ndarray) : list Z := List.concat a.

(** The least of a list of values, [None] for the empty list. *)
Definition least (l : list Z) : option Z :=
  match l with
  | [] => None
  | x :: xs => Some (fold_left Z.min xs x)
  end.

(** [a.min()]: an array without element has no minimum. *)
Definition ndarray_min (a : ndarray) : result Z :=
  match least (ravel a) with
  | Some m => Ok m
  | None => Raise (ValueError "zero-size array to reduction operation minimum which has no identity")
  end.

(** A masked array: the values and, of the same shape, which of them are
    masked. *)
Record MaskedArray := {
  data : ndarray;
  mask : list (list bool)
}.

(** [np.ma.masked_equal(x, value)]: the values are kept, and those equal to
    [value] are masked. *)
Definition masked_equal (x : ndarray) (value : Z) : MaskedArray :=
  {| data := x; mask := map (map (λ v, bool_decide (v = value))) x |}.

(** The values that are not masked, row by row. *)
Definition compressed_row (row : list Z) (mrow : list bool) : list Z :=
  map fst (List.filter (λ vm, negb (snd vm)) (combine row mrow)).

Definition compressed (m : MaskedArray) : list Z :=
  List.concat (map (λ rm, compressed_row (fst rm) (snd rm)) (combine (data m) (mask m))).

(** The least value that is not masked, [None] when there is none. *)
Definition masked_min (m : MaskedArray) : option Z := least (compressed m).

(** [m.min()]: an array without element has no minimum, masked or not;
    otherwise the minimum is the least value that is not masked, and
    [masked] ([None] here) when every value is. *)
Definition masked_array_min (m : MaskedArray) : result (option Z) :=
  match ravel (data m) with
  | [] => Raise (ValueError "zero-size array to reduction operation minimum which has no identity")
  | _ :: _ => Ok (masked_min m)
  end.

(** The masking cell: [rasterArray = np.ma.masked_equal(rasterArray, nodata)]
    and then [rasterArray.min()], for a band whose [GetNoDataValue()] is a
    number; a band without no-data value ([None]) is not modelled. *)
Definition masked_cell (rasterArray : ndarray) (nodata : Z)
  : MaskedArray * result (option Z) :=
  let rasterArray := masked_equal rasterArray nodata in
  (rasterArray, masked_array_min rasterArray).

(** * Facts about strings *)

Lemma chars_inj s t : chars s = chars t → s = t.
Proof.
  intros H. rewrite <- (String.string_of_list_ascii_of_string s),
    <- (String.string_of_list_ascii_of_string t). by rewrite H.
Qed.

Lemma chars_app s t : chars (s +:+ t) = chars s ++ chars t.
Proof. induction s as [|a s IH]; simpl; [done|]. by rewrite IH. Qed.

Lemma chars_length s : length (chars s) = String.length s.
Proof. induction s as [|a s IH]; simpl; [done|]. by rewrite IH. Qed.

Lemma chars_substring n m s :
  chars (String.substring n m s) = take m (drop n (chars s)).
Proof.
  revert n m. induction s as [|a s IH]; intros [|n] [|m]; simpl;
    rewrite ?IH; done.
Qed.

Lemma chars_rev_app s t : chars (String.rev_app s t) = reverse (chars s) ++ chars t.
Proof.
  revert t. induction s as [|a s IH]; intros t; simpl; [done|].
  rewrite IH, reverse_cons. simpl. by rewrite <- app_assoc.
Qed.

Lemma chars_rev s : chars (String.rev s) = reverse (chars s).
Proof. unfold String.rev. rewrite chars_rev_app. simpl. by rewrite app_nil_r. Qed.

Lemma str_app_cons a s t : String a s +:+ t = String a (s +:+ t).
Proof. reflexivity. Qed.

Lemma str_app_assoc s t u : (s +:+ t) +:+ u = s +:+ t +:+ u.
Proof. apply chars_inj. rewrite !chars_app. by rewrite app_assoc. Qed.

Lemma str_app_nil_r s : s +:+ EmptyString = s.
Proof. apply chars_inj. rewrite chars_app. simpl. by rewrite app_nil_r. Qed.

Lemma str_app_inv_tail s t u : s +:+ u = t +:+ u → s = t.
Proof.
  intros H. apply chars_inj. apply (f_equal chars) in H.
  rewrite !chars_app in H. by apply app_inv_tail in H.
Qed.

Lemma str_app_length s t :
  String.length (s +:+ t) = (String.length s + String.length t)%nat.
Proof. rewrite <- !chars_length, chars_app. apply length_app. Qed.

Lemma has_suffix_trans s t u : Str.has_suffix s t → Str.has_suffix t u → Str.has_suffix s u.
Proof.
  intros [r ->] [r' ->]. exists (r +:+ r'). by rewrite str_app_assoc.
Qed.

(** The slice [s[:-n]] keeps all characters but the last [n]. *)
Lemma chars_slice_to_neg s (n : nat) :
  (0 < n)%nat →
  chars (Str.slice_to s (- Z.of_nat n)) = take (String.length s - n) (chars s).
Proof.
  intros Hn. unfold Str.slice_to.
  destruct (Z.ltb_spec (- Z.of_nat n) 0) as [_|]; [|lia].
  rewrite chars_substring, drop_0. f_equal. lia.
Qed.

Lemma chars_without_last n s :
  chars (Str.without_last n s) = take (String.length s - n) (chars s).
Proof.
  unfold Str.without_last.
  rewrite chars_rev, chars_substring, chars_rev.
  rewrite take_ge by (rewrite length_drop, length_reverse, chars_length; lia).
  rewrite drop_reverse, reverse_involutive. by rewrite chars_length.
Qed.

Lemma slice_to_without_last s : Str.slice_to s (-4) = Str.without_last 4 s.
Proof.
  apply chars_inj. rewrite chars_without_last.
  by rewrite <- (chars_slice_to_neg s 4) by lia.
Qed.

Lemma slice_to_app_4 r t : String.length t = 4%nat → Str.slice_to (r +:+ t) (-4) = r.
Proof.
  intros Ht. apply chars_inj. rewrite (chars_slice_to_neg _ 4) by lia.
  rewrite str_app_length, Ht, chars_app.
  apply take_app_length'. rewrite chars_length. lia.
Qed.

Lemma slice_to_short s : (String.length s ≤ 4)%nat → Str.slice_to s (-4) = EmptyString.
Proof.
  intros Hs. apply chars_inj. rewrite (chars_slice_to_neg _ 4) by lia.
  replace (String.length s - 4)%nat with 0%nat by lia. by rewrite take_0.
Qed.

Lemma contains_app s t c :
  Str.contains (s +:+ t) c = Str.contains s c || Str.contains t c.
Proof.
  induction s as [|a s IH]; simpl; [done|]. by rewrite IH, orb_assoc.
Qed.

Lemma contains_chars s c : Str.contains s c = true ↔ c ∈ chars s.
Proof.
  induction s as [|a s IH]; simpl.
  - split; [done|]. by intros ?%elem_of_nil.
  - rewrite orb_true_iff, bool_decide_eq_true, IH, elem_of_cons.
    split; (intros [->|?]; [by left|by right]).
Qed.

Lemma contains_slice_to s c :
  Str.contains s c = false → Str.contains (Str.slice_to s (-4)) c = false.
Proof.
  intros Hs. apply not_true_is_false. intros H. apply not_true_iff_false in Hs.
  apply Hs. apply contains_chars. apply contains_chars in H.
  rewrite (chars_slice_to_neg _ 4) in H by lia.
  by eapply subseteq_take.
Qed.

Lemma contains_concat l c :
  Forall (λ s, Str.contains s c = false) l → Str.contains (Str.concat l) c = false.
Proof.
  induction 1 as [|s l Hs _ IH]; simpl; [done|]. by rewrite contains_app, Hs, IH.
Qed.

Lemma single_line_spec s :
  Str.single_line s = true ↔ Str.contains s Str.LF = false ∧ Str.contains s Str.CR = false.
Proof. unfold Str.single_line. by rewrite andb_true_iff, !negb_true_iff. Qed.

(** * Lines *)

Lemma universal_newlines_id s :
  Str.contains s Str.CR = false → Str.universal_newlines s = s.
Proof.
  induction s as [|a s IH]; simpl; [done|].
  intros [-> Hs]%orb_false_iff. by rewrite (IH Hs).
Qed.

Lemma lines_cons_nl body rest :
  Str.contains body Str.LF = false →
  Str.lines (body +:+ nl +:+ rest) = (body +:+ nl) :: Str.lines rest.
Proof.
  induction body as [|a body IH]; [done|]. simpl.
  intros [Ha Hbody]%orb_false_iff. rewrite !str_app_cons. simpl.
  rewrite Ha. by rewrite (IH Hbody).
Qed.

Lemma lines_concat cmds :
  Forall (λ c, ∃ body, c = body +:+ nl ∧ Str.contains body Str.LF = false) cmds →
  Str.lines (Str.concat cmds) = cmds.
Proof.
  induction 1 as [|c cmds (body & -> & Hbody) _ IH]; [done|]. simpl.
  by rewrite str_app_assoc, lines_cons_nl, IH.
Qed.

(** * Facts about paths and patterns *)

Lemma startswith_contains s c : Str.contains s c = false → Str.startswith s c = false.
Proof. destruct s as [|a s]; simpl; [done|]. by intros [? _]%orb_false_iff. Qed.

Lemma join_step_plain d p :
  d ≠ EmptyString → Str.endswith d sep = false → Str.contains p sep = false →
  join_step d p = d +:+ String sep p.
Proof.
  intros Hd He Hp. unfold join_step.
  rewrite (startswith_contains _ _ Hp), He.
  by case_bool_decide.
Qed.

Lemma join_step_suffix d p : Str.has_suffix (join_step d p) p.
Proof.
  unfold join_step. destruct (Str.startswith p sep).
  - by exists EmptyString.
  - destruct (_ || _).
    + by exists d.
    + exists (d +:+ String sep EmptyString). by rewrite str_app_assoc.
Qed.

Lemma rsplit_sep_plain p :
  Str.contains p sep = false → rsplit_sep p = (EmptyString, p).
Proof.
  induction p as [|c p IH]; simpl; [done|].
  intros [Hc Hp]%orb_false_iff. rewrite (IH Hp). by rewrite Hc.
Qed.

Lemma rsplit_sep_join d p :
  Str.contains p sep = false →
  rsplit_sep (d +:+ String sep p) = (d +:+ String sep EmptyString, p).
Proof.
  intros Hp. induction d as [|c d IH].
  - change (rsplit_sep (String sep p) = (String sep EmptyString, p)). simpl.
    by rewrite (rsplit_sep_plain _ Hp).
  - rewrite !str_app_cons. simpl. rewrite IH. by destruct d.
Qed.

Lemma rstrip_sep_join d :
  d ≠ EmptyString → Str.endswith d sep = false →
  rstrip_sep (d +:+ String sep EmptyString) = d.
Proof.
  induction d as [|c d IH]; [done|]. intros _ He.
  rewrite str_app_cons. simpl. destruct d as [|c' d].
  - simpl in *. by rewrite He.
  - rewrite IH by done. done.
Qed.

Lemma glob_shape_spec d p :
  glob_shape d p = true →
  d ≠ EmptyString ∧ Str.endswith d sep = false ∧ Str.contains p sep = false.
Proof.
  unfold glob_shape. rewrite !andb_true_iff, !negb_true_iff.
  intros [[[[[Hd _] He] Hp] _] _]. by apply bool_decide_eq_false in Hd.
Qed.

(** A plain directory joined with a pattern splits back into the two. *)
Lemma os_path_split_join d p :
  glob_shape d p = true → os_path_split (os_path_join d [p]) = (d, p).
Proof.
  intros (Hd & He & Hp)%glob_shape_spec.
  unfold os_path_join, os_path_split. simpl.
  rewrite join_step_plain, rsplit_sep_join, rstrip_sep_join by done.
  by destruct d.
Qed.

Lemma glob1_filter w dirname pattern :
  glob1 w dirname pattern = List.filter (glob_match pattern) (iterdir w dirname).
Proof.
  unfold glob1, glob_match. destruct (ishidden pattern); simpl; [done|].
  induction (iterdir w dirname) as [|x l IH]; simpl; [done|].
  destruct (ishidden x); simpl; [done|].
  destruct (fnmatch x pattern); by rewrite IH.
Qed.

Lemma enumerate_glob1 d p w :
  glob_shape d p = true →
  enumerate d p w = Ok (map (λ name, os_path_join d [name])
                          (List.filter (glob_match p) (iterdir w d))).
Proof.
  intros H. unfold enumerate, glob_glob.
  by rewrite (os_path_split_join _ _ H), glob1_filter.
Qed.

Lemma FileList_glob1 w :
  FileList w = map (λ name, os_path_join "/home/geo/LandsatData" [name])
                 (List.filter (glob_match "*band*.tif") (iterdir w "/home/geo/LandsatData")).
Proof.
  pose proof (enumerate_glob1 "/home/geo/LandsatData" "*band*.tif" w eq_refl) as H.
  by inversion H.
Qed.

Lemma iterdir_missing w d : listing w !! d = None → iterdir w d = [].
Proof. unfold iterdir, os_scandir. by intros ->. Qed.

Lemma iterdir_listed w d names : listing w !! d = Some names → iterdir w d = names.
Proof. unfold iterdir, os_scandir. by intros ->. Qed.

Lemma filter_none {A} (f : A → bool) l :
  Forall (λ x, f x = false) l → List.filter f l = [].
Proof. induction 1 as [|x l Hx _ IH]; simpl; [done|]. by rewrite Hx. Qed.

Lemma match_toks_star p s :
  match_toks (Star :: p) s
  = match_toks p s || match s with
                      | String _ s' => match_toks (Star :: p) s'
                      | EmptyString => false
                      end.
Proof. by destruct s. Qed.

Lemma match_toks_lits t s : match_toks (lits t) s = true → s = t.
Proof.
  revert s. induction t as [|c t IH]; intros [|a s]; simpl; try done.
  intros [->%bool_decide_eq_true H]%andb_true_iff. by rewrite (IH _ H).
Qed.

(** A pattern that ends in plain text only matches names that end in it. *)
Lemma match_toks_suffix p t s :
  match_toks (p ++ lits t) s = true → Str.has_suffix s t.
Proof.
  revert s. induction p as [|[| |c] p IH]; intros s.
  - intros ->%match_toks_lits. by exists EmptyString.
  - induction s as [|a s IHs]; rewrite <- app_comm_cons, match_toks_star.
    + rewrite orb_false_r. apply IH.
    + intros [H|H]%orb_true_iff; [by apply IH|].
      rewrite app_comm_cons in H. destruct (IHs H) as [r ->]. by exists (String a r).
  - destruct s as [|a s]; simpl; [done|].
    intros [r ->]%IH. by exists (String a r).
  - destruct s as [|a s]; simpl; [done|].
    intros [_ [r ->]%IH]%andb_true_iff. by exists (String a r).
Qed.

Lemma fnmatch_band_tif name : fnmatch name "*band*.tif" = true → Str.has_suffix name ".tif".
Proof.
  unfold fnmatch.
  change (translate "*band*.tif") with (translate "*band*" ++ lits ".tif").
  apply match_toks_suffix.
Qed.

(** Every path the cell enumerates ends in [.tif]. *)
Lemma FileList_tif w p : p ∈ FileList w → Str.has_suffix p ".tif".
Proof.
  rewrite FileList_glob1. intros (name & -> & Hname)%list_elem_of_fmap.
  apply list_elem_of_In, filter_In in Hname as [_ Hm].
  apply andb_true_iff in Hm as [_ Hm].
  eapply has_suffix_trans; [apply join_step_suffix|by apply fnmatch_band_tif].
Qed.

(** * Rendering *)

Lemma format_not_enough_fuel n template args :
  (String.length template ≤ n)%nat →
  supported template = true →
  (length args < placeholders template)%nat →
  format template args = Raise not_enough.
Proof.
  revert template args. induction n as [|n IH]; intros [|c t] args Hn Hs Hp;
    simpl in *; try lia.
  destruct (bool_decide (c = percent)); simpl in *.
  - destruct t as [|conv t']; simpl in *; [lia|].
    destruct (bool_decide (conv = percent)); simpl in *.
    + rewrite IH; [done|lia|done|done].
    + destruct (bool_decide (conv = "s"%char)); simpl in *; [|done].
      destruct args as [|v args']; [done|]. simpl in *.
      rewrite IH; [done|lia|done|lia].
  - rewrite IH; [done|lia|done|done].
Qed.

Lemma format_not_enough template args :
  supported template = true →
  (length args < placeholders template)%nat →
  format template args = Raise not_enough.
Proof. by apply (format_not_enough_fuel (String.length template)). Qed.

(** The notebook's template has a value for each of its six placeholders:
    rendering always succeeds. *)
Lemma render_template i o :
  render_with template i o
  = Ok ("gdalwarp -te 0 0 0 0 " +:+ i +:+ " " +:+ o +:+ " " +:+ nl).
Proof. reflexivity. Qed.

Lemma render_command_line fp : render_with template fp (outputfile fp) = Ok (command_line fp).
Proof.
  rewrite render_template. unfold command_line, command_body.
  by rewrite !str_app_assoc.
Qed.

Lemma rendered_command_lines l : rendered (render_with template) l (map command_line l).
Proof. induction l; constructor; [apply render_command_line|done]. Qed.

Lemma command_body_free fp c :
  c = Str.LF ∨ c = Str.CR →
  Str.contains fp c = false → Str.contains (command_body fp) c = false.
Proof.
  intros Hc Hfp. unfold command_body, outputfile.
  rewrite !contains_app, Hfp, (contains_slice_to _ _ Hfp).
  by destruct Hc as [-> | ->].
Qed.

(** * The batch *)

Lemma loop_ok render l acc s :
  loop render l acc = Ok s ↔ ∃ cmds, rendered render l cmds ∧ s = acc +:+ Str.concat cmds.
Proof.
  unfold rendered. revert acc. induction l as [|fp l IH]; intros acc; simpl.
  - split.
    + intros [= <-]. exists []. split; [constructor|]. by rewrite str_app_nil_r.
    + intros (cmds & ->%Forall2_nil_inv_l & ->). by rewrite str_app_nil_r.
  - destruct (render fp (outputfile fp)) as [c|e] eqn:Hfp.
    + rewrite IH. split.
      * intros (cmds & Hcmds & ->). exists (c :: cmds).
        split; [by constructor|]. simpl. by rewrite str_app_assoc.
      * intros (cmds & (c' & cmds' & Hc & Hcmds & ->)%Forall2_cons_inv_l & ->).
        assert (c' = c) as -> by congruence.
        exists cmds'. split; [done|]. simpl. by rewrite str_app_assoc.
    + split; [done|].
      intros (cmds & (c' & cmds' & Hc & _)%Forall2_cons_inv_l & _). congruence.
Qed.

(** The loop stops at the first file that fails to render, with the
    exception of that file. *)
Lemma loop_raise render l acc :
  (∃ fp e, fp ∈ l ∧ render fp (outputfile fp) = Raise e) →
  ∃ fp e, fp ∈ l ∧ render fp (outputfile fp) = Raise e ∧ loop render l acc = Raise e.
Proof.
  revert acc. induction l as [|fp l IH]; intros acc (fp' & e & Hin & Hfail).
  - by apply elem_of_nil in Hin.
  - simpl. destruct (render fp (outputfile fp)) as [c|e'] eqn:Hfp.
    + apply elem_of_cons in Hin as [->|Hin]; [congruence|].
      destruct (IH (acc +:+ c)) as (fp'' & e'' & ? & ? & ?); [by eauto|].
      exists fp'', e''. split; [by right|done].
    + exists fp, e'. split; [by left|done].
Qed.

(** A run of the batch, statement by statement. *)
Lemma batch_run enumerate render w :
  batch enumerate render w
  = match enumerate w with
    | Raise e => (Raise e, w)
    | Ok l =>
        match loop render l EmptyString with
        | Raise e => (Raise e, w)
        | Ok s =>
            (Ok (),
             {| listing := listing w;
                files := <[cmd_file := s]> (files w);
                trace := trace w ++ [EvOpen cmd_file; EvWrite cmd_file s; EvClose cmd_file] |})
        end
    end.
Proof.
  unfold batch, mbind, M_bind, bind, reads, pure.
  destruct (enumerate w) as [l|e]; [|done].
  destruct (loop render l EmptyString) as [s|e]; [|done].
  simpl. unfold log. simpl. f_equal. f_equal.
  - by rewrite lookup_insert_eq, insert_insert_eq.
  - by rewrite <- !app_assoc.
Qed.

(** * The cell *)

Lemma command_script w : command w = Ok (script w).
Proof.
  unfold command. apply loop_ok. exists (map command_line (FileList w)).
  split; [apply rendered_command_lines|done].
Qed.

Lemma cell_run w :
  cell w
  = (Ok (),
     {| listing := listing w;
        files := <[cmd_file := script w]> (files w);
        trace := trace w ++ [EvOpen cmd_file; EvWrite cmd_file (script w); EvClose cmd_file] |}).
Proof.
  unfold cell, cell_with. rewrite batch_run.
  change (enumerate _ _ w) with (Ok (FileList w)). cbv beta iota.
  pose proof (command_script w) as Hcommand. unfold command in Hcommand.
  by rewrite Hcommand.
Qed.

(** The merge cell, unlike the clipping cell, runs its command. *)
Lemma merge_cell_runs_command w :
  trace (snd (merge_cell w))
  = trace w ++ [EvSystem ("gdal_merge.py -separate band3_clip.tif band4_clip.tif "
                          +:+ "band5_clip.tif -o Landsat8_GreenRedNir.tif")].
Proof. reflexivity. Qed.

(** The script of single-line paths reads back as its commands. *)
Lemma readlines_script w :
  Forall (λ fp, Str.single_line fp = true) (FileList w) →
  readlines (script w) = map command_line (FileList w).
Proof.
  intros H. unfold readlines, script. rewrite universal_newlines_id.
  - apply lines_concat, Forall_fmap.
    eapply Forall_impl; [exact H|]. intros fp [Hfp _]%single_line_spec.
    exists (command_body fp). split; [done|]. apply command_body_free; auto.
  - apply contains_concat, Forall_fmap.
    eapply Forall_impl; [exact H|]. intros fp [_ Hfp]%single_line_spec.
    change (Str.contains (command_line fp) Str.CR = false).
    unfold command_line. rewrite contains_app, command_body_free; auto.
Qed.

(** * The claims *)

(** C1. For the band files [band3.tif], [band4.tif], [band5.tif] the cell
    produces one [gdalwarp] command per file, in the order of the list,
    with the file as input argument and [band3_clip.tif], [band4_clip.tif],
    [band5_clip.tif] as output argument: for the bare names, and for the
    scene directory that holds the three files. *)
Theorem cell_three_bands :
  result_map argv (loop (render_with template)
                     ["band3.tif"; "band4.tif"; "band5.tif"] EmptyString)
  = Ok [["gdalwarp"; "-te"; "0"; "0"; "0"; "0"; "band3.tif"; "band3_clip.tif"];
        ["gdalwarp"; "-te"; "0"; "0"; "0"; "0"; "band4.tif"; "band4_clip.tif"];
        ["gdalwarp"; "-te"; "0"; "0"; "0"; "0"; "band5.tif"; "band5_clip.tif"]]
  ∧ ∃ w', cell w_bands = (Ok (), w')
      ∧ argv <$> files w' !! cmd_file
        = Some [["gdalwarp"; "-te"; "0"; "0"; "0"; "0";
                 "/home/geo/LandsatData/band3.tif"; "/home/geo/LandsatData/band3_clip.tif"];
                ["gdalwarp"; "-te"; "0"; "0"; "0"; "0";
                 "/home/geo/LandsatData/band4.tif"; "/home/geo/LandsatData/band4_clip.tif"];
                ["gdalwarp"; "-te"; "0"; "0"; "0"; "0";
                 "/home/geo/LandsatData/band5.tif"; "/home/geo/LandsatData/band5_clip.tif"]].
Proof.
  split; [by vm_compute|].
  eexists. split; [apply cell_run|]. by vm_compute.
Qed.

(** C2. Whatever lists the files and renders the commands: when the listing
    fails, or the rendering of any file of the list fails, the run raises
    the failure and leaves the world as it was, so nothing was opened and
    nothing written, and no file was skipped.  When the run returns, every
    file of the list was rendered, and the script was written by one
    [write] of the whole text, after the text was built. *)
Theorem batch_aborts_before_writing
    (enumerate : World → result (list string))
    (render : string → string → result string) (w : World) :
  (∀ e, enumerate w = Raise e → batch enumerate render w = (Raise e, w))
  ∧ (∀ l fp e, enumerate w = Ok l → fp ∈ l → render fp (outputfile fp) = Raise e →
       ∃ fp' e', fp' ∈ l ∧ render fp' (outputfile fp') = Raise e'
                 ∧ batch enumerate render w = (Raise e', w))
  ∧ (∀ w', batch enumerate render w = (Ok (), w') →
       ∃ l cmds, enumerate w = Ok l
         ∧ rendered render l cmds
         ∧ trace w' = trace w ++ [EvOpen cmd_file; EvWrite cmd_file (Str.concat cmds);
                                  EvClose cmd_file]
         ∧ files w' = <[cmd_file := Str.concat cmds]> (files w)).
Proof.
  rewrite batch_run. split; [|split].
  - by intros e ->.
  - intros l fp e -> Hin Hfail.
    destruct (loop_raise render l EmptyString) as (fp' & e' & ? & ? & ->); [by eauto|].
    by exists fp', e'.
  - intros w'. destruct (enumerate w) as [l|e]; [|done].
    destruct (loop render l EmptyString) as [s|e] eqn:Hloop; [|done].
    intros [= <-]. apply loop_ok in Hloop as (cmds & Hcmds & ->).
    by exists l, cmds.
Qed.

Lemma batch_aborts_before_writing_witness :
  batch (λ _, Raise (FileNotFoundError "/home/geo/LandsatData")) (render_with template) w_bands
  = (Raise (FileNotFoundError "/home/geo/LandsatData"), w_bands)
  ∧ (∃ fp' e', fp' ∈ FileList w_bands
       ∧ render_with "gdalwarp -te %s %s %s %s %s %s -co %s" fp' (outputfile fp') = Raise e'
       ∧ cell_with "gdalwarp -te %s %s %s %s %s %s -co %s" w_bands = (Raise e', w_bands))
  ∧ (∃ l cmds, enumerate "/home/geo/LandsatData" "*band*.tif" w_bands = Ok l
       ∧ rendered (render_with template) l cmds
       ∧ trace (snd (cell w_bands))
         = trace w_bands ++ [EvOpen cmd_file; EvWrite cmd_file (Str.concat cmds);
                             EvClose cmd_file]
       ∧ files (snd (cell w_bands)) = <[cmd_file := Str.concat cmds]> (files w_bands)).
Proof.
  split; [|split].
  - apply (batch_aborts_before_writing
             (λ _, Raise (FileNotFoundError "/home/geo/LandsatData"))
             (render_with template) w_bands).
    reflexivity.
  - destruct (batch_aborts_before_writing
                (enumerate "/home/geo/LandsatData" "*band*.tif")
                (render_with "gdalwarp -te %s %s %s %s %s %s -co %s") w_bands)
      as (_ & Hrender & _).
    apply (Hrender (FileList w_bands) "/home/geo/LandsatData/band4.tif" not_enough).
    + reflexivity.
    + vm_compute. right. left.
    + reflexivity.
  - apply (batch_aborts_before_writing
             (enumerate "/home/geo/LandsatData" "*band*.tif")
             (render_with template) w_bands).
    vm_compute. reflexivity.
Defined.

(** C3. The derived output path is injective over the files of a batch: two
    distinct paths of one enumeration, with distinct base names, derive
    distinct output paths.  The base names need not even be compared, since
    every enumerated path ends in [.tif], and over paths that end in [.tif]
    the derived output path is injective. *)
Theorem outputfile_injective_tif :
  (∀ w p q, p ∈ FileList w → q ∈ FileList w → p ≠ q →
            os_path_basename p ≠ os_path_basename q → outputfile p ≠ outputfile q)
  ∧ (∀ w p q, p ∈ FileList w → q ∈ FileList w → p ≠ q → outputfile p ≠ outputfile q)
  ∧ (∀ p q, Str.has_suffix p ".tif" → Str.has_suffix q ".tif" →
            p ≠ q → outputfile p ≠ outputfile q).
Proof.
  assert (∀ p q, Str.has_suffix p ".tif" → Str.has_suffix q ".tif" →
                 p ≠ q → outputfile p ≠ outputfile q) as Hinj.
  { intros p q [r ->] [r' ->] Hne Heq. apply Hne. unfold outputfile in Heq.
    rewrite !slice_to_app_4 in Heq by done.
    by rewrite (str_app_inv_tail _ _ _ Heq). }
  assert (∀ w p q, p ∈ FileList w → q ∈ FileList w → p ≠ q →
                   outputfile p ≠ outputfile q) as Hbatch.
  { intros w p q Hp Hq. apply Hinj; by eapply FileList_tif. }
  split; [|by split]. intros w p q Hp Hq Hne _. by apply (Hbatch w).
Qed.

Lemma outputfile_injective_tif_witness :
  outputfile "/home/geo/LandsatData/band3.tif" ≠ outputfile "/home/geo/LandsatData/band4.tif"
  ∧ outputfile "/home/geo/LandsatData/band4.tif" ≠ outputfile "/home/geo/LandsatData/band5.tif"
  ∧ outputfile "/home/geo/LandsatData/band3.tif" ≠ outputfile "/home/geo/LandsatData/band5.tif".
Proof.
  destruct outputfile_injective_tif as (Hnames & Hbatch & Hinj). split; [|split].
  - apply (Hnames w_bands).
    + vm_compute. left.
    + vm_compute. right. left.
    + discriminate.
    + vm_compute. discriminate.
  - apply (Hbatch w_bands).
    + vm_compute. right. left.
    + vm_compute. right. right. left.
    + discriminate.
  - apply Hinj.
    + exists "/home/geo/LandsatData/band3". reflexivity.
    + exists "/home/geo/LandsatData/band5". reflexivity.
    + discriminate.
Defined.

(** C4, as stated, fails: for a directory that does not exist the listing is
    not an error but the empty list, because [glob] swallows the [OSError]
    of [os.scandir]. *)
Lemma enumerate_missing_directory :
  listing w_missing !! "/home/geo/LandsatData" = None
  ∧ os_scandir w_missing "/home/geo/LandsatData"
    = Raise (FileNotFoundError "/home/geo/LandsatData")
  ∧ enumerate "/home/geo/LandsatData" "*band*.tif" w_missing = Ok [].
Proof. by vm_compute. Qed.

(** C4, amended. Listing never fails: it returns the empty list when the
    directory does not exist, and also when the directory exists and none
    of its entries matches the pattern. *)
Theorem enumerate_never_fails (directory pattern : string) (w : World) :
  glob_shape directory pattern = true →
  (listing w !! directory = None → enumerate directory pattern w = Ok [])
  ∧ (∀ names, listing w !! directory = Some names →
       Forall (λ name, glob_match pattern name = false) names →
       enumerate directory pattern w = Ok []).
Proof.
  intros Hshape. rewrite (enumerate_glob1 _ _ _ Hshape). split.
  - intros Hd. by rewrite (iterdir_missing _ _ Hd).
  - intros names Hd Hnames.
    by rewrite (iterdir_listed _ _ _ Hd), (filter_none _ _ Hnames).
Qed.

Lemma enumerate_never_fails_witness :
  enumerate "/home/geo/LandsatData" "*band*.tif" w_missing = Ok []
  ∧ enumerate "/home/geo/LandsatData" "*band*.tif" w_no_match = Ok [].
Proof.
  split.
  - apply (enumerate_never_fails "/home/geo/LandsatData" "*band*.tif" w_missing);
      reflexivity.
  - apply (enumerate_never_fails "/home/geo/LandsatData" "*band*.tif" w_no_match
             eq_refl) with (names := ["LC8_MTL.txt"; "README.GTF"]).
    + reflexivity.
    + repeat constructor.
Defined.

(** C5. Rendering a template in which some placeholder has no value raises
    Python's [TypeError: not enough arguments for format string], the
    MissingParameter condition; and the cell run with a template of more
    than six placeholders raises it at the first file and leaves the world
    as it was: no script file is written. *)
Theorem format_missing_parameter :
  (∀ template args, supported template = true →
     (length args < placeholders template)%nat →
     format template args = Raise not_enough)
  ∧ (∀ template w, supported template = true →
       (6 < placeholders template)%nat → FileList w ≠ [] →
       cell_with template w = (Raise not_enough, w)).
Proof.
  split; [apply format_not_enough|].
  intros template w Hs Hp Hne. unfold cell_with. rewrite batch_run.
  change (enumerate _ _ w) with (Ok (FileList w)).
  destruct (FileList w) as [|fp l]; [done|]. simpl.
  unfold render_with at 1. rewrite format_not_enough; [done|done|simpl; lia].
Qed.

Lemma format_missing_parameter_witness :
  format "gdalwarp -te %s %s %s %s %s %s" [VInt 0; VInt 0; VStr "band3.tif"] = Raise not_enough
  ∧ cell_with "gdalwarp -te %s %s %s %s %s %s -co %s" w_bands = (Raise not_enough, w_bands).
Proof.
  destruct format_missing_parameter as [Hformat Hcell]. split.
  - apply Hformat; [reflexivity|simpl; lia].
  - apply Hcell; [reflexivity|simpl; lia|discriminate].
Defined.

(** C6, as stated, fails: a band file with a newline in its name is listed
    like any other, its one command is written with the newlines of the name
    inside, and the script read back has three lines where one command was
    written. *)
Lemma script_newline_not_round_trip :
  FileList w_newline = ["/home/geo/LandsatData/band" +:+ nl +:+ "3.tif"]
  ∧ render_with template ("/home/geo/LandsatData/band" +:+ nl +:+ "3.tif")
      (outputfile ("/home/geo/LandsatData/band" +:+ nl +:+ "3.tif"))
    = Ok ("gdalwarp -te 0 0 0 0 /home/geo/LandsatData/band" +:+ nl
          +:+ "3.tif /home/geo/LandsatData/band" +:+ nl +:+ "3_clip.tif " +:+ nl)
  ∧ fst (cell w_newline) = Ok ()
  ∧ readlines <$> files (snd (cell w_newline)) !! cmd_file
    = Some ["gdalwarp -te 0 0 0 0 /home/geo/LandsatData/band" +:+ nl;
            "3.tif /home/geo/LandsatData/band" +:+ nl;
            "3_clip.tif " +:+ nl]
  ∧ readlines <$> files (snd (cell w_newline)) !! cmd_file
    ≠ Some ["gdalwarp -te 0 0 0 0 /home/geo/LandsatData/band" +:+ nl
            +:+ "3.tif /home/geo/LandsatData/band" +:+ nl +:+ "3_clip.tif " +:+ nl].
Proof. repeat split; by vm_compute. Qed.

(** C6, amended. When no enumerated path contains a line end (a line feed
    or a carriage return), the script read back as lines is the list of the
    rendered commands, one per line and in the order of the list. *)
Theorem script_round_trip (w : World) :
  Forall (λ fp, Str.single_line fp = true) (FileList w) →
  ∃ cmds w',
    rendered (render_with template) (FileList w) cmds
    ∧ cell w = (Ok (), w')
    ∧ readlines <$> files w' !! cmd_file = Some cmds.
Proof.
  intros Hpaths. exists (map command_line (FileList w)). eexists.
  split; [apply rendered_command_lines|]. split; [apply cell_run|]. simpl.
  rewrite lookup_insert_eq. simpl. by rewrite (readlines_script _ Hpaths).
Qed.

Lemma script_round_trip_witness :
  ∃ cmds w',
    rendered (render_with template) (FileList w_bands) cmds
    ∧ cell w_bands = (Ok (), w')
    ∧ readlines <$> files w' !! cmd_file = Some cmds.
Proof. apply script_round_trip. vm_compute. repeat constructor. Defined.

(** C7. When the pattern matches no entry of the directory (or there is no
    directory), the run returns, and the script it has written is empty: it
    holds no command. *)
Theorem cell_no_match (w : World) :
  Forall (λ name, glob_match "*band*.tif" name = false) (iterdir w "/home/geo/LandsatData") →
  ∃ w', cell w = (Ok (), w')
    ∧ files w' !! cmd_file = Some EmptyString
    ∧ readlines <$> files w' !! cmd_file = Some [].
Proof.
  intros Hnames. eexists. split; [apply cell_run|]. simpl.
  rewrite lookup_insert_eq. unfold script.
  by rewrite FileList_glob1, (filter_none _ _ Hnames).
Qed.

Lemma cell_no_match_witness :
  ∃ w', cell w_no_match = (Ok (), w')
    ∧ files w' !! cmd_file = Some EmptyString
    ∧ readlines <$> files w' !! cmd_file = Some [].
Proof. apply cell_no_match. vm_compute. repeat constructor. Defined.

(** C8. A run of the cell always returns, and all it does to the world is
    to open, write once and close the script file: the directories and every
    other file are as before, and no command was run and nothing
    downloaded. *)
Theorem cell_only_writes_script (w : World) :
  ∃ w', cell w = (Ok (), w')
    ∧ trace w' = trace w ++ [EvOpen cmd_file; EvWrite cmd_file (script w); EvClose cmd_file]
    ∧ listing w' = listing w
    ∧ files w' !! cmd_file = Some (script w)
    ∧ (∀ path, path ≠ cmd_file → files w' !! path = files w !! path)
    ∧ (∀ ev, ev ∈ trace w' → ev ∉ trace w →
         (∀ cmd, ev ≠ EvSystem cmd) ∧ (∀ url path, ev ≠ EvUrlretrieve url path)).
Proof.
  eexists. split; [apply cell_run|]. simpl.
  split; [done|]. split; [done|]. split; [apply lookup_insert_eq|].
  split; [intros path Hpath; by apply lookup_insert_ne|].
  intros ev [Hold|Hnew]%elem_of_app Hfresh; [done|].
  repeat (apply elem_of_cons in Hnew as [->|Hnew]; [by split|]).
  by apply elem_of_nil in Hnew.
Qed.

Lemma cell_only_writes_script_witness :
  ∃ w', cell w_bands = (Ok (), w')
    ∧ files w' !! "/home/geo/LandsatData/band3.tif"
      = files w_bands !! "/home/geo/LandsatData/band3.tif".
Proof.
  destruct (cell_only_writes_script w_bands) as (w' & Hrun & _ & _ & _ & Hframe & _).
  exists w'. split; [exact Hrun|]. apply Hframe. discriminate.
Defined.

(** C9, as stated, fails in its last part: the directory holds one entry
    that matches the pattern, one path is enumerated, and the script has
    three lines, because the name of the entry contains a newline. *)
Lemma script_newline_three_lines :
  listing w_newline !! "/home/geo/LandsatData" = Some ["band" +:+ nl +:+ "3.tif"]
  ∧ length (List.filter (glob_match "*band*.tif") ["band" +:+ nl +:+ "3.tif"]) = 1%nat
  ∧ length (FileList w_newline) = 1%nat
  ∧ fst (cell w_newline) = Ok ()
  ∧ (length ∘ readlines) <$> files (snd (cell w_newline)) !! cmd_file = Some 3%nat.
Proof. repeat split; by vm_compute. Qed.

(** C9, amended. Listing a directory returns exactly one path per entry
    that [glob] matches against the pattern (the name passes [fnmatch], and
    an entry that starts with a dot only for a pattern that starts with a
    dot), each the directory joined with such an entry; and the script the
    cell writes is the concatenation of exactly one rendered command per
    enumerated path, in the order of the list.  Each command is one line of
    the script when no enumerated path contains a line end. *)
Theorem enumerate_one_command_each :
  (∀ directory pattern w names,
     glob_shape directory pattern = true →
     listing w !! directory = Some names →
     ∃ l, enumerate directory pattern w = Ok l
       ∧ length l = length (List.filter (glob_match pattern) names)
       ∧ Forall (λ fp, ∃ name, name ∈ names ∧ glob_match pattern name = true
                               ∧ fp = os_path_join directory [name]) l)
  ∧ (∀ w, ∃ cmds w',
       rendered (render_with template) (FileList w) cmds
       ∧ cell w = (Ok (), w')
       ∧ files w' !! cmd_file = Some (Str.concat cmds)
       ∧ (Forall (λ fp, Str.single_line fp = true) (FileList w) →
          readlines (Str.concat cmds) = cmds)).
Proof.
  split.
  - intros directory pattern w names Hshape Hdir. eexists.
    split; [by apply enumerate_glob1|].
    rewrite (iterdir_listed _ _ _ Hdir). split; [by rewrite length_map|].
    apply Forall_fmap, Forall_forall. intros name Hname.
    apply list_elem_of_In, filter_In in Hname as [Hin Hm]. simpl.
    exists name. by rewrite list_elem_of_In.
  - intros w. exists (map command_line (FileList w)). eexists.
    split; [apply rendered_command_lines|]. split; [apply cell_run|]. simpl.
    split; [apply lookup_insert_eq|]. apply readlines_script.
Qed.

Lemma enumerate_one_command_each_witness :
  (∃ l, enumerate "/home/geo/LandsatData" "*band*.tif" w_bands = Ok l
     ∧ length l = 3%nat)
  ∧ (∃ cmds, readlines (Str.concat cmds) = cmds ∧ length cmds = 3%nat).
Proof.
  destruct enumerate_one_command_each as [Henum Hcell]. split.
  - destruct (Henum "/home/geo/LandsatData" "*band*.tif" w_bands
                ["band3.tif"; "band4.tif"; "band5.tif"]) as (l & Hl & Hlen & _);
      [reflexivity|reflexivity|].
    exists l. split; [exact Hl|exact Hlen].
  - destruct (Hcell w_bands) as (cmds & w' & Hcmds & _ & _ & Hlines).
    exists cmds. split.
    + apply Hlines. vm_compute. repeat constructor.
    + apply Forall2_length in Hcmds. rewrite <- Hcmds. reflexivity.
Defined.

(** C10. For every input path the derived output path is the path with its
    last four characters removed, followed by [_clip.tif], whatever the
    extension of the path is; so two paths that agree on all but their last
    four characters derive the same output path, and a path of at most four
    characters derives exactly [_clip.tif]. *)
Theorem outputfile_last_four :
  (∀ p, outputfile p = Str.without_last 4 p +:+ "_clip.tif")
  ∧ (∀ p q, Str.without_last 4 p = Str.without_last 4 q → outputfile p = outputfile q)
  ∧ (∀ p, (String.length p ≤ 4)%nat → outputfile p = "_clip.tif").
Proof.
  split; [|split].
  - intros p. unfold outputfile. by rewrite slice_to_without_last.
  - intros p q H. unfold outputfile. by rewrite !slice_to_without_last, H.
  - intros p Hp. unfold outputfile. by rewrite slice_to_short.
Qed.

Lemma outputfile_last_four_witness :
  outputfile "band3.tif" = outputfile "band3.png" ∧ outputfile ".tif" = "_clip.tif".
Proof.
  destruct outputfile_last_four as (_ & Hsame & Hshort). split.
  - apply Hsame. reflexivity.
  - apply Hshort. simpl. lia.
Defined.

(** * Further properties *)

(** ** The derived output path *)


Lemma outputfile_tif r : outputfile (r +:+ ".tif") = r +:+ "_clip.tif".
Proof. unfold outputfile. by rewrite slice_to_app_4. Qed.

(** X1. For an input path that ends in [.tif] the output path is the input
    with [_clip] put before the extension; every path the cell enumerates is
    of that kind. *)
Theorem outputfile_inserts_clip :
  (∀ r, outputfile (r +:+ ".tif") = r +:+ "_clip.tif")
  ∧ (∀ w p, p ∈ FileList w → ∃ r, p = r +:+ ".tif" ∧ outputfile p = r +:+ "_clip.tif").
Proof.
  split; [apply outputfile_tif|].
  intros w p [r ->]%FileList_tif. exists r. split; [done|apply outputfile_tif].
Qed.

Lemma outputfile_inserts_clip_witness :
  ∃ r, "/home/geo/LandsatData/band4.tif" = r +:+ ".tif"
       ∧ outputfile "/home/geo/LandsatData/band4.tif" = r +:+ "_clip.tif".
Proof.
  destruct outputfile_inserts_clip as [_ Hbatch].
  apply (Hbatch w_bands). vm_compute. right. left.
Defined.


(** ** What the pattern matches *)

Lemma match_toks_lit c p s :
  match_toks (Lit c :: p) s = true ↔ ∃ b, s = String c b ∧ match_toks p b = true.
Proof.
  destruct s as [|a s]; simpl.
  - split; [done|]. by intros (b & ? & _).
  - rewrite andb_true_iff, bool_decide_eq_true. split.
    + intros [-> H]. by exists s.
    + intros (b & [= -> ->] & H). done.
Qed.

Lemma match_toks_star_iff p s :
  match_toks (Star :: p) s = true ↔ ∃ a b, s = a +:+ b ∧ match_toks p b = true.
Proof.
  split.
  - induction s as [|c s IH]; rewrite match_toks_star, orb_true_iff.
    + intros [H|?]; [|done]. by exists EmptyString, EmptyString.
    + intros [H|H]; [by exists EmptyString, (String c s)|].
      destruct (IH H) as (a & b & -> & Hb). by exists (String c a), b.
  - intros (a & b & -> & Hb). induction a as [|c a IH].
    + rewrite match_toks_star. change (EmptyString +:+ b) with b. by rewrite Hb.
    + rewrite str_app_cons, match_toks_star, IH. apply orb_true_r.
Qed.

Lemma match_toks_lits_app t p s :
  match_toks (lits t ++ p) s = true ↔ ∃ b, s = t +:+ b ∧ match_toks p b = true.
Proof.
  revert s. induction t as [|c t IH]; intros s.
  - change (lits EmptyString ++ p) with p. split.
    + intros H. by exists s.
    + by intros (b & -> & H).
  - change (lits (String c t) ++ p) with (Lit c :: (lits t ++ p)).
    rewrite match_toks_lit. split.
    + intros (b & -> & (b' & -> & H)%IH). by exists b'.
    + intros (b & -> & H). exists (t +:+ b). split; [done|]. apply IH. by exists b.
Qed.

(** The names [*band*.tif] matches are those with [band] somewhere before a
    final [.tif]. *)
Lemma fnmatch_band_tif_iff name :
  fnmatch name "*band*.tif" = true ↔ ∃ a b, name = a +:+ "band" +:+ b +:+ ".tif".
Proof.
  unfold fnmatch.
  change (translate "*band*.tif")
    with (Star :: (lits "band" ++ Star :: (lits ".tif" ++ []))).
  rewrite match_toks_star_iff. split.
  - intros (a & s1 & -> & (s2 & -> & (b & s3 & -> & (s4 & -> & Hnil)%match_toks_lits_app
                                        )%match_toks_star_iff)%match_toks_lits_app).
    destruct s4; [|done]. by exists a, b.
  - intros (a & b & ->). exists a, ("band" +:+ b +:+ ".tif"). split; [done|].
    apply match_toks_lits_app. exists (b +:+ ".tif"). split; [done|].
    apply match_toks_star_iff. exists b, ".tif". split; [done|].
    apply match_toks_lits_app. by exists EmptyString.
Qed.

Lemma glob_match_band_tif_iff name :
  glob_match "*band*.tif" name = true
  ↔ Str.startswith name "."%char = false ∧ ∃ a b, name = a +:+ "band" +:+ b +:+ ".tif".
Proof.
  unfold glob_match. change (ishidden "*band*.tif") with false.
  rewrite orb_false_l, andb_true_iff, negb_true_iff, fnmatch_band_tif_iff. done.
Qed.

Lemma elem_of_FileList w p :
  p ∈ FileList w
  ↔ ∃ name, name ∈ iterdir w "/home/geo/LandsatData"
            ∧ glob_match "*band*.tif" name = true
            ∧ p = os_path_join "/home/geo/LandsatData" [name].
Proof.
  rewrite FileList_glob1, list_elem_of_fmap. split.
  - intros (name & -> & Hname). apply list_elem_of_In, filter_In in Hname as [Hin Hm].
    exists name. by rewrite list_elem_of_In.
  - intros (name & Hin & Hm & ->). exists name. split; [done|].
    apply list_elem_of_In, filter_In. by rewrite <- list_elem_of_In.
Qed.

(** Joining puts the same prefix before a name whatever follows its first
    character. *)
Lemma join_step_prefix d c r :
  ∃ P, ∀ x, join_step d (String c r +:+ x) = P +:+ String c r +:+ x.
Proof.
  unfold join_step. simpl. destruct (bool_decide (c = sep)).
  - by exists EmptyString.
  - destruct (_ || _).
    + by exists d.
    + exists (d +:+ String sep EmptyString). intros x. by rewrite str_app_assoc.
Qed.

Lemma outputfile_join d r :
  r ≠ EmptyString →
  outputfile (os_path_join d [r +:+ ".tif"]) = os_path_join d [r +:+ "_clip.tif"].
Proof.
  destruct r as [|c r]; [done|]. intros _.
  destruct (join_step_prefix d c r) as [P HP].
  unfold os_path_join. simpl. rewrite !HP, <- !str_app_assoc. apply outputfile_tif.
Qed.

Lemma startswith_app c r x a : Str.startswith (String c r +:+ x) a = Str.startswith (String c r) a.
Proof. reflexivity. Qed.

Lemma glob_match_outputfile name :
  glob_match "*band*.tif" name = true →
  glob_match "*band*.tif" (outputfile name) = true
  ∧ ∃ r, r ≠ EmptyString ∧ name = r +:+ ".tif" ∧ outputfile name = r +:+ "_clip.tif".
Proof.
  intros [Hdot (a & b & ->)]%glob_match_band_tif_iff.
  assert (a +:+ "band" +:+ b +:+ ".tif" = (a +:+ "band" +:+ b) +:+ ".tif") as Hname
    by (by rewrite !str_app_assoc).
  assert (∃ c r, a +:+ "band" +:+ b = String c r) as (c & r & Hr)
    by (destruct a; simpl; eauto).
  rewrite Hname, Hr in *. rewrite outputfile_tif. split.
  - apply glob_match_band_tif_iff. split; [by rewrite startswith_app in *|].
    exists a, (b +:+ "_clip"). by rewrite <- Hr, !str_app_assoc.
  - by exists (String c r).
Qed.

(** X3. The output name of every file the pattern matches is matched by the
    pattern too.  So once a clipped file lies in the scene directory, which
    is where the script puts it, the cell lists it as an input of the next
    batch. *)
Theorem outputs_match_pattern :
  (∀ name, glob_match "*band*.tif" name = true →
           glob_match "*band*.tif" (outputfile name) = true)
  ∧ (∀ w w' name,
       name ∈ iterdir w "/home/geo/LandsatData" →
       glob_match "*band*.tif" name = true →
       outputfile name ∈ iterdir w' "/home/geo/LandsatData" →
       os_path_join "/home/geo/LandsatData" [name] ∈ FileList w
       ∧ outputfile (os_path_join "/home/geo/LandsatData" [name]) ∈ FileList w').
Proof.
  split; [intros name Hm; by apply glob_match_outputfile|].
  intros w w' name Hin Hm Hout. split.
  - apply elem_of_FileList. by exists name.
  - destruct (glob_match_outputfile _ Hm) as (Hm' & r & Hr & -> & Heq).
    rewrite outputfile_join by done. rewrite <- Heq.
    apply elem_of_FileList. by exists (outputfile (r +:+ ".tif")).
Qed.

Lemma outputs_match_pattern_witness :
  os_path_join "/home/geo/LandsatData" ["band3.tif"] ∈ FileList w_bands
  ∧ outputfile (os_path_join "/home/geo/LandsatData" ["band3.tif"]) ∈ FileList w_clipped.
Proof.
  destruct outputs_match_pattern as [_ Hnext].
  apply (Hnext w_bands w_clipped "band3.tif").
  - vm_compute. left.
  - reflexivity.
  - vm_compute. right. left.
Defined.

(** X4. The paths the cell enumerates are exactly the entries of the scene
    directory that do not start with a dot and have [band] somewhere before
    a final [.tif], each joined to the directory: hidden files, names in
    another case and other extensions are never listed. *)
Theorem FileList_characterised (w : World) (p : string) :
  p ∈ FileList w
  ↔ ∃ name a b, name ∈ iterdir w "/home/geo/LandsatData"
                ∧ name = a +:+ "band" +:+ b +:+ ".tif"
                ∧ Str.startswith name "."%char = false
                ∧ p = os_path_join "/home/geo/LandsatData" [name].
Proof.
  rewrite elem_of_FileList. split.
  - intros (name & Hin & [Hdot (a & b & Hname)]%glob_match_band_tif_iff & ->).
    by exists name, a, b.
  - intros (name & a & b & Hin & Hname & Hdot & ->). exists name.
    split; [done|]. split; [|done]. apply glob_match_band_tif_iff. eauto.
Qed.

Lemma FileList_characterised_witness :
  "/home/geo/LandsatData/band4.tif" ∈ FileList w_bands.
Proof.
  apply FileList_characterised. exists "band4.tif", EmptyString, "4".
  split; [vm_compute; right; left|]. repeat split.
Defined.

(** ** Order, repetition and composition *)

Lemma filter_sublist {A} (f : A → bool) (l : list A) : List.filter f l `sublist_of` l.
Proof.
  induction l as [|x l IH]; simpl; [done|].
  destruct (f x); [by apply sublist_skip|by apply sublist_cons].
Qed.

Lemma join_step_plain_name d :
  ∃ P, ∀ name, Str.contains name sep = false → join_step d name = P +:+ name.
Proof.
  destruct (bool_decide (d = EmptyString) || Str.endswith d sep) eqn:Hd.
  - exists d. intros name Hname. unfold join_step.
    by rewrite (startswith_contains _ _ Hname), Hd.
  - exists (d +:+ String sep EmptyString). intros name Hname. unfold join_step.
    by rewrite (startswith_contains _ _ Hname), Hd, str_app_assoc.
Qed.

(** X5. The cell enumerates the matching entries in the order in which the
    directory yields them, and, as entries of a directory have no slash in
    their names, a directory without repeated entry gives a list without
    repeated path: no file gets two commands. *)
Theorem FileList_order_nodup (w : World) (names : list string) :
  listing w !! "/home/geo/LandsatData" = Some names →
  FileList w `sublist_of` map (λ name, os_path_join "/home/geo/LandsatData" [name]) names
  ∧ (Forall (λ name, Str.contains name sep = false) names → NoDup names →
     NoDup (FileList w)).
Proof.
  intros Hdir. rewrite FileList_glob1, (iterdir_listed _ _ _ Hdir). split.
  - apply fmap_sublist, filter_sublist.
  - intros Hplain Hnodup. apply NoDup_fmap_2_strong.
    + intros x y Hx Hy. unfold os_path_join. simpl.
      destruct (join_step_plain_name "/home/geo/LandsatData") as [P HP].
      apply list_elem_of_In, filter_In in Hx as [Hx%list_elem_of_In _].
      apply list_elem_of_In, filter_In in Hy as [Hy%list_elem_of_In _].
      rewrite Forall_forall in Hplain.
      rewrite !HP by auto. apply String.app_inj.
    + apply NoDup_ListNoDup, List.NoDup_filter. by apply NoDup_ListNoDup.
Qed.

Lemma FileList_order_nodup_witness :
  FileList w_bands
    `sublist_of` map (λ name, os_path_join "/home/geo/LandsatData" [name])
                   ["band3.tif"; "band4.tif"; "band5.tif"]
  ∧ NoDup (FileList w_bands).
Proof.
  destruct (FileList_order_nodup w_bands ["band3.tif"; "band4.tif"; "band5.tif"])
    as [Horder Hnodup]; [reflexivity|].
  split; [exact Horder|]. apply Hnodup.
  - repeat constructor.
  - compute_done.
Defined.

Lemma concat_app l1 l2 : Str.concat (l1 ++ l2) = Str.concat l1 +:+ Str.concat l2.
Proof.
  induction l1 as [|s l1 IH]; simpl; [done|]. by rewrite IH, str_app_assoc.
Qed.

(** X6. The command of a file does not depend on the other files: when the
    entries of a directory are those of one directory followed by those of
    another, the script is the script of the first followed by the script of
    the second. *)
Theorem script_app (w w1 w2 : World) :
  iterdir w "/home/geo/LandsatData"
  = iterdir w1 "/home/geo/LandsatData" ++ iterdir w2 "/home/geo/LandsatData" →
  FileList w = FileList w1 ++ FileList w2
  ∧ script w = script w1 +:+ script w2.
Proof.
  intros Hdir.
  assert (FileList w = FileList w1 ++ FileList w2) as Hlist.
  { rewrite !FileList_glob1, Hdir, List.filter_app. apply map_app. }
  split; [done|]. unfold script. by rewrite Hlist, map_app, concat_app.
Qed.

Lemma script_app_witness :
  script w_bands
  = script (no_effects {[ "/home/geo/LandsatData" := ["band3.tif"] ]})
    +:+ script (no_effects {[ "/home/geo/LandsatData" := ["band4.tif"; "band5.tif"] ]}).
Proof. apply script_app. reflexivity. Defined.

Lemma FileList_listing w w' : listing w = listing w' → FileList w = FileList w'.
Proof.
  intros H. rewrite !FileList_glob1. unfold iterdir, os_scandir. by rewrite H.
Qed.

(** X7. Running the cell again does not append to the script: the second
    run lists the same files, empties the script file and writes the same
    text, so the files are as the first run left them. *)
Theorem cell_twice (w : World) :
  ∃ w1 w2, cell w = (Ok (), w1)
    ∧ cell w1 = (Ok (), w2)
    ∧ files w2 = files w1
    ∧ files w2 !! cmd_file = Some (script w)
    ∧ listing w2 = listing w
    ∧ trace w2 = trace w1 ++ [EvOpen cmd_file; EvWrite cmd_file (script w);
                              EvClose cmd_file].
Proof.
  eexists. eexists. split; [apply cell_run|]. split; [apply cell_run|]. simpl.
  assert (script {| listing := listing w;
                    files := <[cmd_file := script w]> (files w);
                    trace := trace w ++ [EvOpen cmd_file; EvWrite cmd_file (script w);
                                         EvClose cmd_file] |} = script w) as ->.
  { unfold script. by rewrite (FileList_listing _ w). }
  split; [apply insert_insert_eq|]. split; [apply lookup_insert_eq|]. done.
Qed.

(** ** When [%] returns *)

Lemma result_map_ok {A B} (f : A → B) (r : result A) (b : B) :
  result_map f r = Ok b ↔ ∃ a, r = Ok a ∧ b = f a.
Proof.
  destruct r as [a|e]; simpl.
  - split; [intros [= <-]; by exists a|intros (a' & [= <-] & ->); done].
  - split; [done|by intros (a & ? & _)].
Qed.

Lemma format_ok_fuel n template args :
  (String.length template ≤ n)%nat →
  (∃ s, format template args = Ok s)
  ↔ supported template = true ∧ complete template = true
    ∧ length args = placeholders template.
Proof.
  assert (∀ l, (∃ s, format EmptyString l = Ok s)
               ↔ supported EmptyString = true ∧ complete EmptyString = true
                 ∧ length l = placeholders EmptyString) as Hnil.
  { clear. intros [|v l]; simpl.
    - split; [done|]. intros _. by eexists.
    - split; [by intros [? ?]|by intros (_ & _ & ?)]. }
  revert template args. induction n as [|n IH]; intros [|c t] args Hn;
    try apply Hnil; simpl in *; try lia.
  destruct (bool_decide (c = percent)); simpl.
  - destruct t as [|conv t']; simpl in *.
    { split; [by intros [? ?]|by intros (_ & ? & _)]. }
    destruct (bool_decide (conv = percent)); simpl.
    { rewrite <- (IH t' args) by lia. split.
      - intros [s (a & Ha & _)%result_map_ok]. by exists a.
      - intros [a Ha]. rewrite Ha. by eexists. }
    destruct (bool_decide (conv = "s"%char)); simpl.
    + destruct args as [|v args']; simpl.
      { split; [by intros [? ?]|by intros (_ & _ & ?)]. }
      assert (S (length args') = S (placeholders t') ↔ length args' = placeholders t')
        as -> by lia.
      rewrite <- (IH t' args') by lia. split.
      * intros [s (a & Ha & _)%result_map_ok]. by exists a.
      * intros [a Ha]. rewrite Ha. by eexists.
    + split; [by intros [? ?]|by intros (? & _)].
  - rewrite <- (IH t args) by lia. split.
    + intros [s (a & Ha & _)%result_map_ok]. by exists a.
    + intros [a Ha]. rewrite Ha. by eexists.
Qed.

(** X8. For a template whose conversions are all [%s] or [%%],
    [template % args] returns exactly when the template does not end in a
    lone [%] and there are as many values as placeholders; in every other
    case it raises. *)
Theorem format_returns_iff (template : string) (args : list value) :
  supported template = true →
  (∃ s, format template args = Ok s)
  ↔ complete template = true ∧ length args = placeholders template.
Proof.
  intros Hs. rewrite (format_ok_fuel (String.length template)) by done.
  split; [by intros (_ & ? & ?)|by intros [? ?]].
Qed.

Lemma format_returns_iff_witness :
  ∃ s, format "gdal_merge.py -separate %s -o %s"
         [VStr "band3_clip.tif band4_clip.tif band5_clip.tif"; VStr "Landsat8_GreenRedNir.tif"]
       = Ok s.
Proof. apply format_returns_iff; [reflexivity|]. split; reflexivity. Defined.

Lemma format_too_many_fuel n template args :
  (String.length template ≤ n)%nat →
  supported template = true → complete template = true →
  (placeholders template < length args)%nat →
  format template args = Raise not_all_converted.
Proof.
  revert template args. induction n as [|n IH]; intros [|c t] args Hn Hs Hc Hp;
    simpl in *; try lia.
  - by destruct args; simpl in *; [lia|].
  - by destruct args; simpl in *; [lia|].
  - destruct (bool_decide (c = percent)); simpl in *.
    + destruct t as [|conv t']; simpl in *; [done|].
      destruct (bool_decide (conv = percent)); simpl in *.
      * rewrite IH; [done|lia|done|done|done].
      * destruct (bool_decide (conv = "s"%char)); simpl in *; [|done].
        destruct args as [|v args']; simpl in *; [lia|].
        rewrite IH; [done|lia|done|done|lia].
    + rewrite IH; [done|lia|done|done|done].
Qed.

(** X9. With more values than placeholders, a template of [%s] and [%%]
    raises Python's [TypeError: not all arguments converted during string
    formatting]: a value too many is an error, not ignored. *)
Theorem format_too_many (template : string) (args : list value) :
  supported template = true → complete template = true →
  (placeholders template < length args)%nat →
  format template args = Raise not_all_converted.
Proof. by apply (format_too_many_fuel (String.length template)). Qed.

Lemma format_too_many_witness :
  format "gdalwarp -te %s %s %s %s %s.tif"
    [VInt xmin; VInt ymin; VInt xmax; VInt ymax; VStr "band3"; VStr "band3_clip"]
  = Raise not_all_converted.
Proof. apply format_too_many; [reflexivity|reflexivity|simpl; lia]. Defined.

(** ** [os.path.split] after [os.path.join] *)

(** X10. Splitting undoes joining: for a directory that is not empty and
    does not end in a slash, and a name without slash, the joined path
    splits back into the directory and the name, and the name is its
    base name. *)
Theorem os_path_split_join_plain (d name : string) :
  d ≠ EmptyString → Str.endswith d sep = false → Str.contains name sep = false →
  os_path_split (os_path_join d [name]) = (d, name)
  ∧ os_path_basename (os_path_join d [name]) = name.
Proof.
  intros Hd He Hname.
  assert (os_path_split (os_path_join d [name]) = (d, name)) as Hsplit.
  { unfold os_path_join, os_path_split. simpl.
    rewrite join_step_plain, rsplit_sep_join, rstrip_sep_join by done.
    by destruct d. }
  split; [done|]. unfold os_path_basename. by rewrite Hsplit.
Qed.

Lemma os_path_split_join_plain_witness :
  os_path_split (os_path_join "/home/geo/LandsatData" ["band4.tif"])
  = ("/home/geo/LandsatData", "band4.tif")
  ∧ os_path_basename (os_path_join "/home/geo/LandsatData" ["band4.tif"]) = "band4.tif".
Proof. apply os_path_split_join_plain; [discriminate|reflexivity|reflexivity]. Defined.

(** ** The words of a command *)

Lemma has_blank_app s t : has_blank (s +:+ t) = has_blank s || has_blank t.
Proof.
  induction s as [|a s IH]; [done|]. rewrite str_app_cons. simpl.
  by rewrite IH, orb_assoc.
Qed.

Lemma has_blank_chars s :
  has_blank s = true ↔ ∃ c, c ∈ chars s ∧ Ascii.is_space c = true.
Proof.
  induction s as [|a s IH]; simpl.
  - split; [done|]. by intros (c & ?%elem_of_nil & _).
  - rewrite orb_true_iff, IH. split.
    + intros [Ha|(c & Hc & Hsp)]; [exists a; split; [left|done]|].
      exists c. split; [by right|done].
    + intros (c & [->|Hc]%elem_of_cons & Hsp); [by left|]. right. by exists c.
Qed.

Lemma has_blank_contains s c :
  Ascii.is_space c = true → has_blank s = false → Str.contains s c = false.
Proof.
  intros Hc Hs. apply not_true_is_false. intros Hin%contains_chars.
  apply not_true_iff_false in Hs. apply Hs, has_blank_chars. by exists c.
Qed.

Lemma has_blank_slice_to s : has_blank s = false → has_blank (Str.slice_to s (-4)) = false.
Proof.
  intros Hs. apply not_true_is_false. intros (c & Hc & Hsp)%has_blank_chars.
  apply not_true_iff_false in Hs. apply Hs, has_blank_chars. exists c. split; [|done].
  rewrite (chars_slice_to_neg _ 4) in Hc by lia. by eapply subseteq_take.
Qed.

Lemma rev_rev_app s cur : String.rev (String.rev_app s cur) = String.rev cur +:+ s.
Proof.
  apply chars_inj. rewrite chars_rev, chars_rev_app, chars_app, chars_rev.
  by rewrite reverse_app, reverse_involutive.
Qed.

Lemma words_go_plain s cur sp rest :
  has_blank s = false → Ascii.is_space sp = true →
  String.words_go (Some cur) (s +:+ String sp rest)
  = (String.rev cur +:+ s) :: String.words_go None rest.
Proof.
  intros Hs Hsp. revert cur. induction s as [|a s IH]; intros cur.
  - change (EmptyString +:+ String sp rest) with (String sp rest). simpl.
    by rewrite Hsp, str_app_nil_r.
  - simpl in Hs. apply orb_false_iff in Hs as [Ha Hs].
    rewrite str_app_cons. simpl. rewrite Ha. simpl. rewrite (IH Hs).
    f_equal. rewrite <- (rev_rev_app (String a s) cur). by rewrite <- rev_rev_app.
Qed.

(** A word followed by a blank is the first word of the text. *)
Lemma words_cons word sp rest :
  word ≠ EmptyString → has_blank word = false → Ascii.is_space sp = true →
  String.words (word +:+ String sp rest) = word :: String.words rest.
Proof.
  destruct word as [|a s]; [done|]. intros _ [Ha Hs]%orb_false_iff Hsp.
  unfold String.words. rewrite str_app_cons. simpl. rewrite Ha. simpl.
  by rewrite words_go_plain.
Qed.

Lemma words_command_line fp :
  fp ≠ EmptyString → has_blank fp = false →
  String.words (command_line fp) = gdalwarp_argv fp.
Proof.
  intros Hne Hfp.
  assert (command_line fp
          = "gdalwarp" +:+ String " " ("-te" +:+ String " " ("0" +:+ String " "
              ("0" +:+ String " " ("0" +:+ String " " ("0" +:+ String " "
              (fp +:+ String " " (outputfile fp +:+ String " " nl)))))))) as ->.
  { unfold command_line, command_body. by rewrite !str_app_assoc. }
  assert (outputfile fp ≠ EmptyString) as Hout.
  { intros Hout. apply (f_equal String.length) in Hout.
    unfold outputfile in Hout. rewrite str_app_length in Hout. simpl in Hout. lia. }
  assert (has_blank (outputfile fp) = false) as Hblank.
  { unfold outputfile. by rewrite has_blank_app, has_blank_slice_to. }
  by rewrite !words_cons.
Qed.

(** Split at blanks, the script of blank-free paths gives the words of the
    commands. *)
Lemma argv_script_blank_free (w : World) :
  Forall (λ fp, has_blank fp = false) (FileList w) →
  argv (script w) = map gdalwarp_argv (FileList w).
Proof.
  intros Hpaths. unfold argv. rewrite readlines_script.
  - rewrite map_map. apply map_ext_in. intros fp Hin%list_elem_of_In.
    apply words_command_line.
    + apply FileList_tif in Hin as [r ->]. by destruct r.
    + rewrite Forall_forall in Hpaths. auto.
  - eapply Forall_impl; [exact Hpaths|]. intros fp Hfp. simpl.
    apply single_line_spec. split; by apply has_blank_contains.
Qed.

Lemma plain_char_not_space c : plain_char c = true → Ascii.is_space c = false.
Proof. by destruct c as [[] [] [] [] [] [] [] []]. Qed.

Lemma plain_no_blank s : plain s = true → has_blank s = false.
Proof.
  induction s as [|a s IH]; simpl; [done|].
  intros [Ha Hs]%andb_true_iff. by rewrite (plain_char_not_space _ Ha), IH.
Qed.

(** X11. When every enumerated path is made of letters, digits and the
    characters [/ . _ -] only, which the shell takes as they are, every line
    of the script splits into exactly eight words: [gdalwarp], [-te], the
    four bounds, the input path and its output path, line by line in the
    order of the list. *)
Theorem script_argv (w : World) :
  Forall (λ fp, plain fp = true) (FileList w) →
  ∃ w', cell w = (Ok (), w')
    ∧ argv <$> files w' !! cmd_file = Some (map gdalwarp_argv (FileList w)).
Proof.
  intros Hpaths. eexists. split; [apply cell_run|]. simpl.
  rewrite lookup_insert_eq. simpl. f_equal. apply argv_script_blank_free.
  eapply Forall_impl; [exact Hpaths|]. intros fp Hfp. by apply plain_no_blank.
Qed.

Lemma script_argv_witness :
  ∃ w', cell w_bands = (Ok (), w')
    ∧ argv <$> files w' !! cmd_file = Some (map gdalwarp_argv (FileList w_bands)).
Proof. apply script_argv. vm_compute. repeat constructor. Defined.

Lemma has_blank_rev s : has_blank s = false → has_blank (String.rev s) = false.
Proof.
  intros Hs. apply not_true_is_false. intros (c & Hc & Hsp)%has_blank_chars.
  apply not_true_iff_false in Hs. apply Hs, has_blank_chars. exists c. split; [|done].
  by rewrite chars_rev, elem_of_reverse in Hc.
Qed.

(** No word has a blank in it. *)
Lemma words_go_no_blank s cur word :
  (∀ c, cur = Some c → has_blank c = false) →
  word ∈ String.words_go cur s → has_blank word = false.
Proof.
  revert cur. induction s as [|a s IH]; intros cur Hcur; simpl.
  - destruct cur as [c|]; simpl; [|by intros ?%elem_of_nil].
    intros ->%list_elem_of_singleton. by apply has_blank_rev, Hcur.
  - destruct (Ascii.is_space a) eqn:Ha.
    + intros [Hin|Hin]%elem_of_app; [|by apply (IH None)].
      destruct cur as [c|]; simpl in Hin; [|by apply elem_of_nil in Hin].
      apply list_elem_of_singleton in Hin as ->. by apply has_blank_rev, Hcur.
    + apply IH. intros c [= <-]. destruct cur as [c'|]; simpl.
      * by rewrite Ha, (Hcur c').
      * by rewrite Ha.
Qed.

Lemma has_ifs_blank s : has_ifs s = true → has_blank s = true.
Proof.
  induction s as [|a s IH]; simpl; [done|].
  intros [Ha|Hs]%orb_true_iff; [|by rewrite IH, orb_true_r].
  assert (Ascii.is_space a = true) as ->; [|done].
  unfold ifs_char in Ha. apply orb_true_iff in Ha as [Ha|Ha];
    [apply orb_true_iff in Ha as [Ha|Ha]|]; by apply bool_decide_eq_true in Ha as ->.
Qed.

(** X16. A space, a tab or a newline in an enumerated path breaks its
    command: the path is written into the script as it is, without quotes,
    so the line is split inside the path and the words of the script are not
    the intended ones. *)
Theorem script_argv_blank (w : World) (fp : string) :
  fp ∈ FileList w → has_ifs fp = true →
  ∃ w', cell w = (Ok (), w')
    ∧ argv <$> files w' !! cmd_file ≠ Some (map gdalwarp_argv (FileList w)).
Proof.
  intros Hin Hblank%has_ifs_blank. eexists. split; [apply cell_run|]. simpl.
  rewrite lookup_insert_eq. simpl. intros [= Heq].
  assert (gdalwarp_argv fp ∈ argv (script w)) as Hargv.
  { rewrite Heq. apply list_elem_of_fmap. by exists fp. }
  apply list_elem_of_fmap in Hargv as (line & Hline & _).
  assert (fp ∈ String.words line) as Hword.
  { rewrite <- Hline. unfold gdalwarp_argv. do 6 right. left. }
  apply (words_go_no_blank line None) in Hword; [congruence|done].
Qed.

Lemma script_argv_blank_witness :
  ∃ w', cell (no_effects {[ "/home/geo/LandsatData" := ["sr band4.tif"] ]}) = (Ok (), w')
    ∧ argv <$> files w' !! cmd_file
      ≠ Some (map gdalwarp_argv
                (FileList (no_effects {[ "/home/geo/LandsatData" := ["sr band4.tif"] ]}))).
Proof.
  apply (script_argv_blank _ "/home/geo/LandsatData/sr band4.tif").
  - vm_compute. left.
  - reflexivity.
Defined.

(** ** Band statistics *)

(** X12. Provided [ComputeStatistics] records both bounds, the statistics
    cell leaves a band whose minimum and maximum are known, and running the
    cell again on that band computes nothing: the band stays as it is and
    only the three values are printed.  A band whose bounds are known from
    the start is not touched either. *)
Theorem statistics_cell_once (V : Type) (repr : option V → string)
    (ComputeStatistics : Band V → Band V) (band : Band V) :
  (∀ b, is_Some (GetMinimum (ComputeStatistics b))
        ∧ is_Some (GetMaximum (ComputeStatistics b))) →
  let band1 := fst (statistics_cell V repr ComputeStatistics band) in
  is_Some (GetMinimum band1) ∧ is_Some (GetMaximum band1)
  ∧ statistics_cell V repr ComputeStatistics band1
    = (band1, [print2 V repr "[ NO DATA VALUE ] = " (GetNoDataValue band1);
               print2 V repr "[ MIN ] = " (GetMinimum band1);
               print2 V repr "[ MAX ] = " (GetMaximum band1)])
  ∧ (is_Some (GetMinimum band) → is_Some (GetMaximum band) → band1 = band).
Proof.
  intros Hcompute band1.
  assert (is_Some (GetMinimum band1) ∧ is_Some (GetMaximum band1)) as [Hmin Hmax].
  { subst band1. unfold statistics_cell.
    destruct (GetMinimum band) as [lo|] eqn:Hlo; simpl; [|apply Hcompute].
    destruct (GetMaximum band) as [hi|] eqn:Hhi; simpl; [|apply Hcompute].
    by rewrite Hlo, Hhi. }
  split; [done|]. split; [done|]. split.
  - clearbody band1. unfold statistics_cell.
    destruct Hmin as [lo Hlo], Hmax as [hi Hhi].
    rewrite Hlo, Hhi. simpl. by rewrite ?Hlo, ?Hhi.
  - intros [lo Hlo] [hi Hhi]. subst band1. unfold statistics_cell.
    by rewrite Hlo, Hhi.
Qed.

Lemma statistics_cell_once_witness :
  is_Some (GetMinimum (fst (statistics_cell Z sample_repr sample_ComputeStatistics sample_band)))
  ∧ statistics_cell Z sample_repr sample_ComputeStatistics
      (fst (statistics_cell Z sample_repr sample_ComputeStatistics sample_band))
    = (sample_ComputeStatistics sample_band,
       ["[ NO DATA VALUE ] =  -9999"; "[ MIN ] =  0"; "[ MAX ] =  16000"]).
Proof.
  destruct (statistics_cell_once Z sample_repr sample_ComputeStatistics sample_band)
    as (Hmin & _ & Hagain & _).
  - intros b. split; simpl; by eexists.
  - split; [exact Hmin|]. rewrite Hagain. reflexivity.
Defined.

(** ** Masked arrays *)

Lemma fold_left_min_spec xs x :
  (fold_left Z.min xs x = x ∨ fold_left Z.min xs x ∈ xs)
  ∧ fold_left Z.min xs x ≤ x
  ∧ ∀ y, y ∈ xs → fold_left Z.min xs x ≤ y.
Proof.
  revert x. induction xs as [|z xs IH]; intros x; simpl.
  - split; [by left|]. split; [lia|]. by intros y ?%elem_of_nil.
  - destruct (IH (Z.min x z)) as (Hin & Hle & Hall). split; [|split].
    + destruct Hin as [->|Hin]; [|right; by right].
      destruct (Z.min_spec x z) as [[_ ->]|[_ ->]]; [by left|right; by left].
    + lia.
    + intros y [->|Hy]%elem_of_cons; [lia|by apply Hall].
Qed.

Lemma least_spec l m :
  least l = Some m → m ∈ l ∧ ∀ y, y ∈ l → m ≤ y.
Proof.
  destruct l as [|x xs]; simpl; [done|]. intros [= <-].
  destruct (fold_left_min_spec xs x) as (Hin & Hle & Hall). split.
  - destruct Hin as [->|Hin]; [by left|by right].
  - intros y [->|Hy]%elem_of_cons; [done|by apply Hall].
Qed.

Lemma least_none l : least l = None → l = [].
Proof. by destruct l. Qed.

Lemma compressed_row_equal row v :
  compressed_row row (map (λ x, bool_decide (x = v)) row)
  = List.filter (λ x, negb (bool_decide (x = v))) row.
Proof.
  unfold compressed_row. induction row as [|x row IH]; simpl; [done|].
  destruct (bool_decide (x = v)); simpl; by rewrite IH.
Qed.

(** The values left by masking are the values that differ from the masked
    one, in their order. *)
Lemma compressed_masked_equal a v :
  compressed (masked_equal a v) = List.filter (λ x, negb (bool_decide (x = v))) (ravel a).
Proof.
  unfold compressed, masked_equal, ravel. simpl.
  induction a as [|row a IH]; simpl; [done|].
  by rewrite compressed_row_equal, IH, List.filter_app.
Qed.

Lemma elem_of_compressed a v x :
  x ∈ compressed (masked_equal a v) ↔ x ∈ ravel a ∧ x ≠ v.
Proof.
  rewrite compressed_masked_equal, !list_elem_of_In, filter_In.
  by rewrite negb_true_iff, bool_decide_eq_false.
Qed.

(** X13. Masking keeps the values of the array.  The minimum of the masked
    array is the least value that differs from the no-data value: it is a
    value of the array, it is never the no-data value, and no valid value is
    below it.  The minimum is [masked] exactly when the array has values and
    every one of them is the no-data value, and asking for it raises
    [ValueError] exactly when the array has no value at all. *)
Theorem masked_min_valid (rasterArray : ndarray) (nodata : Z) :
  data (fst (masked_cell rasterArray nodata)) = rasterArray
  ∧ match snd (masked_cell rasterArray nodata) with
    | Ok (Some m) => m ≠ nodata ∧ m ∈ ravel rasterArray
                     ∧ ∀ x, x ∈ ravel rasterArray → x ≠ nodata → m ≤ x
    | Ok None => ravel rasterArray ≠ [] ∧ ∀ x, x ∈ ravel rasterArray → x = nodata
    | Raise e =>
        ravel rasterArray = []
        ∧ e = ValueError "zero-size array to reduction operation minimum which has no identity"
    end.
Proof.
  split; [done|]. unfold masked_cell, masked_array_min, masked_min. simpl.
  destruct (ravel rasterArray) as [|x0 xs] eqn:Hravel; [done|].
  rewrite <- Hravel. destruct (least _) as [m|] eqn:Hm.
  - apply least_spec in Hm as [[Hin Hne]%elem_of_compressed Hall].
    split; [done|]. split; [done|]. intros x Hx Hxne.
    apply Hall, elem_of_compressed. done.
  - apply least_none in Hm. split; [by rewrite Hravel|]. intros x Hx.
    destruct (decide (x = nodata)) as [|Hne]; [done|].
    assert (x ∈ compressed (masked_equal rasterArray nodata)) as Hin
      by (by apply elem_of_compressed).
    rewrite Hm in Hin. by apply elem_of_nil in Hin.
Qed.

Lemma masked_min_valid_witness :
  snd (masked_cell [[-9999; 312; 287]; [-9999; -9999; 301]] (-9999)) = Ok (Some 287)
  ∧ 287 ≤ 301.
Proof.
  pose proof (masked_min_valid [[-9999; 312; 287]; [-9999; -9999; 301]] (-9999))
    as [_ Hmin].
  split; [reflexivity|].
  change (snd (masked_cell _ _)) with (@Ok (option Z) (Some 287)) in Hmin.
  destruct Hmin as (_ & _ & Hall). apply Hall.
  - vm_compute. do 5 right. left.
  - discriminate.
Defined.

(** X14. Masking can only raise the minimum: the minimum of the masked array
    is not below the minimum of the array; it is strictly above when the
    minimum of the array is the no-data value, and the same when the
    no-data value does not occur. *)
Theorem masked_min_not_below (rasterArray : ndarray) (nodata lo m : Z) :
  ndarray_min rasterArray = Ok lo →
  masked_min (masked_equal rasterArray nodata) = Some m →
  lo ≤ m
  ∧ (lo = nodata → lo < m)
  ∧ (nodata ∉ ravel rasterArray → m = lo).
Proof.
  unfold ndarray_min, masked_min.
  destruct (least (ravel rasterArray)) as [lo'|] eqn:Hlo; [|done].
  intros [= ->] Hm.
  apply least_spec in Hlo as [Hlo_in Hlo_all].
  apply least_spec in Hm as [[Hm_in Hm_ne]%elem_of_compressed Hm_all].
  assert (lo ≤ m) as Hle by (by apply Hlo_all).
  split; [done|]. split.
  - intros ->. lia.
  - intros Habsent. assert (m ≤ lo); [|lia].
    apply Hm_all, elem_of_compressed. split; [done|]. by intros ->.
Qed.

Lemma masked_min_not_below_witness :
  -9999 ≤ 287 ∧ (-9999 = -9999 → -9999 < 287)
  ∧ (-9999 ∉ ravel [[-9999; 312; 287]; [-9999; -9999; 301]] → 287 = -9999).
Proof.
  apply (masked_min_not_below [[-9999; 312; 287]; [-9999; -9999; 301]] (-9999));
    reflexivity.
Defined.
